(** * LongLoRA demo: the request handler and the RoPE-scaling set-up of [demo.py]

    A shallow embedding of [demo.py].  The script is glue over third-party
    libraries (transformers, torch, gradio); those are taken as a [Host]
    record of functions, and every call into them is logged as an [event],
    so that statements such as "generation is not called" can be made about
    the log.  What the script itself computes is embedded in full: the
    string operations it relies on ([str.split], [str.strip],
    [str.format_map], the [%] operator), the binary64 arithmetic behind
    [float(math.ceil(a / b))], the closure [response] built by
    [build_generator], and [main].

    Conventions.
    - A Python [str] is a [string]; a character is a code point below 256.
    - A Python [int] is a [Z].
    - A Python [float] is a [spec_float] of the Standard Library, at
      precision 53 and maximal exponent 1024 (binary64).
    - An exception is a constructor of [exn]; a computation that may raise
      returns a [result].

    The texts and the example gallery of the web form take no part in what
    [response] and [main] compute and are left out. *)

From Stdlib Require Import ZArith List String Ascii Bool Lia.
From Stdlib Require Import Numbers.DecimalString Floats.SpecFloat.
Import ListNotations.

Local Open Scope string_scope.
Local Open Scope Z_scope.

(** ** Exceptions and results *)

Inductive exn : Type :=
| TypeError
| IndexError
| KeyError
| ValueError
| OverflowError
| ZeroDivisionError
| OSError
| RuntimeError (msg : string).

Inductive result (A : Type) : Type :=
| Ok (a : A)
| Raise (e : exn).

Arguments Ok {A} a.
Arguments Raise {A} e.

Definition rbind {A B : Type} (r : result A) (k : A -> result B) : result B :=
  match r with
  | Ok a => k a
  | Raise e => Raise e
  end.

Declare Scope result_scope.
Delimit Scope result_scope with result.
Notation "'try' x <- r ; k" := (rbind r (fun x => k))
  (at level 10, x name, r at level 100, k at level 200) : result_scope.

(** ** Python strings *)

Module PyStr.

(** [str(n)] and the [%d] conversion of an [int]. *)
Definition str_of_int (z : Z) : string :=
  NilZero.string_of_int (Z.to_int z).

(** [str.isspace] of one character, for code points below 256. *)
Definition is_space (c : ascii) : bool :=
  let n := nat_of_ascii c in
  ((9 <=? n) && (n <=? 13))%nat || ((28 <=? n) && (n <=? 32))%nat
  || (n =? 133)%nat || (n =? 160)%nat.

Fixpoint lstrip (s : string) : string :=
  match s with
  | EmptyString => EmptyString
  | String c s' => if is_space c then lstrip s' else s
  end.

Fixpoint rstrip (s : string) : string :=
  match s with
  | EmptyString => EmptyString
  | String c s' =>
      match rstrip s' with
      | EmptyString => if is_space c then EmptyString else String c EmptyString
      | r => String c r
      end
  end.

(** [s.strip()] *)
Definition strip (s : string) : string := rstrip (lstrip s).

(** [s.split(sep)], scanning left to right.  [skip] counts the characters of
    a separator just matched that are still to be passed over; [cur] is the
    piece being collected. *)
Fixpoint split_go (sep : string) (skip : nat) (cur s : string) : list string :=
  match s with
  | EmptyString => [cur]
  | String c s' =>
      match skip with
      | S k => split_go sep k cur s'
      | O =>
          if prefix sep s
          then cur :: split_go sep (Nat.pred (String.length sep)) EmptyString s'
          else split_go sep O (cur ++ String c EmptyString) s'
      end
  end.

(** [s.split(sep)]: an empty separator raises [ValueError]. *)
Definition split (s sep : string) : result (list string) :=
  match sep with
  | EmptyString => Raise ValueError
  | _ => Ok (split_go sep O EmptyString s)
  end.

(** [l[-1]] *)
Definition last_item (l : list string) : result string :=
  match rev l with
  | [] => Raise IndexError
  | x :: _ => Ok x
  end.

(** [l[i]] for a non-negative [i] *)
Definition item (l : list string) (i : nat) : result string :=
  match nth_error l i with
  | Some x => Ok x
  | None => Raise IndexError
  end.

(** A [dict] with [str] keys, as an association list. *)
Definition dict (V : Type) : Type := list (string * V).

Fixpoint getitem {V : Type} (d : dict V) (k : string) : result V :=
  match d with
  | [] => Raise KeyError
  | (k', v) :: d' => if String.eqb k' k then Ok v else getitem d' k
  end.

(** The argument of the [%] operator: a [str] or an [int]. *)
Inductive fmt_arg : Type :=
| AStr (s : string)
| AInt (z : Z).

(** [fmt % args] for the conversions [%s], [%d] and [%%]. *)
Fixpoint percent_go (fmt : string) (args : list fmt_arg) : result string :=
  match fmt with
  | EmptyString =>
      match args with
      | [] => Ok EmptyString
      | _ :: _ => Raise TypeError
      end
  | String "%" (String "s" rest) =>
      match args with
      | [] => Raise TypeError
      | AStr s :: args' =>
          (try r <- percent_go rest args'; Ok (s ++ r))%result
      | AInt z :: args' =>
          (try r <- percent_go rest args'; Ok (str_of_int z ++ r))%result
      end
  | String "%" (String "d" rest) =>
      match args with
      | AInt z :: args' =>
          (try r <- percent_go rest args'; Ok (str_of_int z ++ r))%result
      | _ => Raise TypeError
      end
  | String "%" (String "%" rest) =>
      (try r <- percent_go rest args; Ok (String "%" r))%result
  | String "%" _ => Raise ValueError
  | String c rest =>
      (try r <- percent_go rest args; Ok (String c r))%result
  end.

(** [fmt % x] with a single argument that is not a tuple. *)
Definition percent (fmt : string) (x : fmt_arg) : result string :=
  percent_go fmt [x].

Definition is_digit (c : ascii) : bool :=
  let n := nat_of_ascii c in ((48 <=? n) && (n <=? 57))%nat.

Fixpoint all_digits (s : string) : bool :=
  match s with
  | EmptyString => true
  | String c s' => is_digit c && all_digits s'
  end.

(** Characters that start a conversion, a format spec, an attribute or an
    index inside a replacement field. *)
Definition field_syntax (c : ascii) : bool :=
  (c =? "{")%char || (c =? "!")%char || (c =? ":")%char
  || (c =? ".")%char || (c =? "[")%char.

(** [tmpl.format_map(kw)] for templates made of literal text, the escapes
    [{{] and [}}], and plain named fields [{name}] whose values are [str].
    [field] is [Some name] while the scan is inside a replacement field.  An
    empty or numeric field name is positional and finds no argument
    ([IndexError]); a missing key raises [KeyError].  Conversions, format
    specs and attribute or index access are outside this fragment and are
    reported as [ValueError]. *)
Fixpoint format_go (kw : dict string) (field : option string) (tmpl : string)
  : result string :=
  match field with
  | None =>
      match tmpl with
      | EmptyString => Ok EmptyString
      | String "{" (String "{" rest) =>
          (try r <- format_go kw None rest; Ok (String "{" r))%result
      | String "{" rest => format_go kw (Some EmptyString) rest
      | String "}" (String "}" rest) =>
          (try r <- format_go kw None rest; Ok (String "}" r))%result
      | String "}" _ => Raise ValueError
      | String c rest =>
          (try r <- format_go kw None rest; Ok (String c r))%result
      end
  | Some name =>
      match tmpl with
      | EmptyString => Raise ValueError
      | String "}" rest =>
          if all_digits name then Raise IndexError
          else
            (try v <- getitem kw name;
             try r <- format_go kw None rest;
             Ok (v ++ r))%result
      | String c rest =>
          if field_syntax c then Raise ValueError
          else format_go kw (Some (name ++ String c EmptyString)) rest
      end
  end.

Definition format_map (tmpl : string) (kw : dict string) : result string :=
  format_go kw None tmpl.

(** [sub in s] *)
Definition occurs (sub s : string) : Prop :=
  exists pre post, s = pre ++ sub ++ post.

(** [sep.join(pieces)] *)
Fixpoint join (sep : string) (pieces : list string) : string :=
  match pieces with
  | [] => EmptyString
  | p :: rest =>
      match rest with
      | [] => p
      | _ :: _ => p ++ sep ++ join sep rest
      end
  end.

(** [sub] occurs in [pre ++ sub] at its end only: behind [pre] is the first
    place where [sub] can start. *)
Definition first_at (sub pre : string) : Prop :=
  forall a b, pre ++ sub = a ++ sub ++ b -> b = EmptyString.

(** No [sep] starts inside [cur] in the text [cur ++ s]. *)
Definition clear_of (sep cur s : string) : Prop :=
  forall a b, cur ++ s = a ++ sep ++ b ->
              (String.length cur <= String.length a)%nat.

(** Every character of [s] is whitespace. *)
Fixpoint all_space (s : string) : bool :=
  match s with
  | EmptyString => true
  | String c s' => is_space c && all_space s'
  end.

(** [s[0]] and [s[-1]], when [s] is not empty. *)
Definition head_char (s : string) : option ascii :=
  match s with
  | EmptyString => None
  | String c _ => Some c
  end.

Fixpoint last_char (s : string) : option ascii :=
  match s with
  | EmptyString => None
  | String c s' =>
      match s' with
      | EmptyString => Some c
      | String _ _ => last_char s'
      end
  end.

(** [f.readlines()] on a file opened in text mode whose text, newlines
    translated, is [s]: each line keeps its newline; a last line without
    one is kept as it is.  [cur] is the line being collected. *)
Fixpoint readlines_go (cur s : string) : list string :=
  match s with
  | EmptyString =>
      match cur with
      | EmptyString => []
      | String _ _ => [cur]
      end
  | String c s' =>
      if (c =? ascii_of_nat 10)%char
      then (cur ++ String c EmptyString) :: readlines_go EmptyString s'
      else readlines_go (cur ++ String c EmptyString) s'
  end.

Definition readlines (text : string) : list string :=
  readlines_go EmptyString text.

End PyStr.

(** ** Python floats *)

Module PyFloat.

(** binary64: 53 bits of precision, exponents of the integer significand
    from [emin] to [emax - prec]. *)
Definition prec : Z := 53.
Definition emax : Z := 1024.
Definition emin : Z := 3 - emax - prec.

Definition float : Type := spec_float.

(** [x / y] rounded to the nearest integer, ties to even, for [0 <= x] and
    [0 < y]. *)
Definition div_half_even (x y : Z) : Z :=
  let q := x / y in
  match 2 * (x mod y) ?= y with
  | Lt => q
  | Gt => q + 1
  | Eq => if Z.even q then q else q + 1
  end.

(** The integer part of the binary logarithm of [a / b], for [0 < a] and
    [0 < b]. *)
Definition log2_ratio (a b : Z) : Z :=
  let d := Z.log2 a - Z.log2 b in
  let reaches := if 0 <=? d then b * 2 ^ d <=? a else b <=? a * 2 ^ (- d) in
  if reaches then d else d - 1.

(** The binary64 number nearest to [a / b] (ties to even) with sign [s], for
    [0 < a] and [0 < b].  A quotient below the subnormal range becomes a
    signed zero; one beyond the largest finite number raises
    [OverflowError], as Python does for an [int] too large for a [float]. *)
Definition round_ratio (s : bool) (a b : Z) : result float :=
  let e := Z.max (log2_ratio a b - (prec - 1)) emin in
  let n := if 0 <=? e then div_half_even a (b * 2 ^ e)
           else div_half_even (a * 2 ^ (- e)) b in
  let '(n, e) := if n =? 2 ^ prec then (2 ^ (prec - 1), e + 1) else (n, e) in
  if n =? 0 then Ok (S754_zero s)
  else if emax - prec <? e then Raise OverflowError
  else Ok (S754_finite s (Z.to_pos n) e).

(** [a / b] on two [int]s: the correctly rounded quotient. *)
Definition true_div (a b : Z) : result float :=
  if b =? 0 then Raise ZeroDivisionError
  else if a =? 0 then Ok (S754_zero (b <? 0))
  else round_ratio (xorb (a <? 0) (b <? 0)) (Z.abs a) (Z.abs b).

(** [float(n)] on an [int]. *)
Definition float_of_int (n : Z) : result float :=
  if n =? 0 then Ok (S754_zero false)
  else round_ratio (n <? 0) (Z.abs n) 1.

(** [math.ceil(x)] *)
Definition math_ceil (x : float) : result Z :=
  match x with
  | S754_zero _ => Ok 0
  | S754_finite s m e =>
      let v := if s then Z.neg m else Z.pos m in
      Ok (if 0 <=? e then v * 2 ^ e else - ((- v) / 2 ^ (- e)))
  | S754_infinity _ => Raise OverflowError
  | S754_nan => Raise ValueError
  end.

(** The float [x] is exactly the integer [k]. *)
Definition is_integer (x : float) (k : Z) : Prop :=
  match x with
  | S754_zero _ => k = 0
  | S754_finite s m e =>
      let v := if s then Z.neg m else Z.pos m in
      if 0 <=? e then v * 2 ^ e = k else v = k * 2 ^ (- e)
  | _ => False
  end.

(** The ceiling of the rational [a / b], for [b <> 0]. *)
Definition ceil_div (a b : Z) : Z := - ((- a) / b).

(** An [int] as an unrounded operand of the Standard Library's reference
    division [SFdiv]. *)
Definition exact_operand (z : Z) : spec_float :=
  match z with
  | Z0 => S754_zero false
  | Zpos p => S754_finite false p 0
  | Zneg p => S754_finite true p 0
  end.

(** [true_div] against [SFdiv] on one pair of operands. *)
Definition agrees_with_SFdiv (ab : Z * Z) : bool :=
  let '(a, b) := ab in
  match true_div a b, SFdiv prec emax (exact_operand a) (exact_operand b) with
  | Ok (S754_zero s), S754_zero s' => Bool.eqb s s'
  | Ok (S754_finite s m e), S754_finite s' m' e' =>
      Bool.eqb s s' && (m =? m')%positive && (e =? e')
  | Raise OverflowError, S754_infinity _ => true
  | _, _ => false
  end.

Definition division_samples : list (Z * Z) :=
  [ (1, 3); (2, 3); (1, 10); (-1, 10); (1, -10); (-7, -3); (0, 5); (0, -5);
    (32768, 4096); (32769, 4096); (100000, 4096); (-1, 4096); (8192, 2048);
    (2 ^ 53 + 1, 1); (2 ^ 53 + 3, 1); (2 ^ 53 - 1, 2 ^ 53);
    (2 ^ 54 + 2, 4); (2 ^ 54 + 6, 4); (2 ^ 53, 2 ^ 53 - 1);
    (2 ^ 1024, 1); (2 ^ 1024 - 1, 1); (2 ^ 1024 - 2 ^ 970, 1);
    (2 ^ 1024 - 2 ^ 970 - 1, 1); (2 ^ 1023, 1); (3 * 2 ^ 1022, 1);
    (1, 2 ^ 1074); (1, 2 ^ 1075); (3, 2 ^ 1075); (1, 2 ^ 1076);
    (5, 2 ^ 1076); (1, 2 ^ 1022); (2 ^ 52 - 1, 2 ^ 1074);
    (2 ^ 53 - 1, 2 ^ 1075); (2 ^ 53 + 1, 2 ^ 1075); (7, 2 ^ 1080);
    (123456789123456789123456789, 987654321987); (3, 7 * 2 ^ 1070);
    (2 ^ 2000, 2 ^ 1000 + 1); (2 ^ 2100, 2 ^ 1000 + 1) ].

End PyFloat.

(** ** The script *)

Module Demo.

Import PyStr PyFloat.

(** *** Objects of the libraries *)

(** The uploaded file object handed over by the web form. *)
Record File : Type := { name : string }.

(** A value of the [rope_scaling] dictionary. *)
Inductive value : Type :=
| VStr (s : string)
| VFloat (x : float).

(** The attributes of a model configuration that [main] reads or writes.
    [max_position_embeddings] is [None] when the attribute is absent, as
    [getattr(config, "max_position_embeddings", None)] sees it. *)
Record Config : Type := {
  max_position_embeddings : option Z;
  rope_scaling : option (dict value)
}.

Definition set_rope_scaling (config : Config) (rs : dict value) : Config :=
  {| max_position_embeddings := max_position_embeddings config;
     rope_scaling := Some rs |}.

(** The keyword arguments [response] passes to [model.generate]. *)
Record GenerateKwargs : Type := {
  max_new_tokens : Z;
  kw_temperature : float;
  kw_top_p : float;
  kw_use_cache : bool
}.

(** A tokenizer: [encode] is the row [inputs['input_ids'][0]] of
    [tokenizer(prompt, return_tensors="pt")], [decode] is
    [tokenizer.decode(ids, skip_special_tokens=True)]. *)
Record Tokenizer : Type := {
  encode : string -> list Z;
  decode : list Z -> string
}.

(** A model: [generate] is the row [output[0]] of [model.generate], or the
    exception it raises.  Sampling makes the library's routine random; the
    function stands for what the call returns in the run considered. *)
Record Model : Type := {
  generate : list Z -> GenerateKwargs -> result (list Z)
}.

(** The command line, as [parse_config] returns it. *)
Record Args : Type := {
  base_model : string;
  cache_dir : string;
  context_size : Z;
  flash_attn : bool;
  temperature : float;
  top_p : float;
  max_gen_len : Z
}.

(** What the script finds around it: the files it can open ([readlines] of
    a file opened in text mode, or the exception [open] raises), the
    pretrained-model repository, and the torch installation. *)
Record Host : Type := {
  open_text : string -> result (list string);
  AutoConfig_from_pretrained : string -> string -> result Config;
  AutoModelForCausalLM_from_pretrained :
    string -> Config -> string -> result Model;
  AutoTokenizer_from_pretrained : string -> string -> Z -> result Tokenizer;
  torch_compile : Model -> Model;
  torch_version : string;
  sys_platform : string
}.

(** *** Effects *)

(** One entry of the log per call that leaves the script. *)
Inductive event : Type :=
| EvReplaceLlamaAttn
| EvAutoConfig (base cache : string)
| EvAutoModel (base : string) (config : Config) (cache : string)
| EvResizeTokenEmbeddings (n : Z)
| EvAutoTokenizer (base cache : string) (model_max_length : Z)
| EvModelEval
| EvTorchCompile
| EvInterface
| EvQueue
| EvLaunch
| EvOpen (path : string)
| EvTokenize (prompt : string)
| EvEmptyCache
| EvGenerate (input_ids : list Z) (kwargs : GenerateKwargs)
| EvDecode (ids : list Z)
| EvPrint (items : list string).

(** A computation appends to the log and returns a value or raises. *)
Definition M (A : Type) : Type := list event -> result A * list event.

Definition ret {A : Type} (a : A) : M A := fun log => (Ok a, log).

Definition bind {A B : Type} (m : M A) (k : A -> M B) : M B :=
  fun log =>
    match m log with
    | (Ok a, log') => k a log'
    | (Raise e, log') => (Raise e, log')
    end.

(** A pure step that may raise. *)
Definition lift {A : Type} (r : result A) : M A := fun log => (r, log).

(** A call into a library: logged, then its outcome. *)
Definition call {A : Type} (e : event) (r : result A) : M A :=
  fun log => (r, (log ++ [e])%list).

Definition emit (e : event) : M unit := call e (Ok tt).

Definition run {A : Type} (m : M A) : result A * list event := m [].

Declare Scope demo_scope.
Delimit Scope demo_scope with demo.
Notation "x <- m ;; k" := (bind m (fun x => k))
  (at level 61, m at next level, right associativity) : demo_scope.
Notation "m ;; k" := (bind m (fun _ => k))
  (at level 61, right associativity) : demo_scope.
Local Open Scope demo_scope.

(** *** Constants *)

Definition LF : string := String (ascii_of_nat 10) EmptyString.

(** The text of the template before and after its one field. *)
Definition prompt_head : string :=
  "Below is an instruction that describes a task. "
  ++ "Write a response that appropriately completes the request." ++ LF ++ LF
  ++ "### Instruction:" ++ LF.

Definition prompt_tail : string := LF ++ LF ++ "### Response:".

Definition PROMPT_DICT : dict string :=
  [ ("prompt_no_input",
     "Below is an instruction that describes a task. "
     ++ "Write a response that appropriately completes the request."
     ++ LF ++ LF
     ++ "### Instruction:" ++ LF ++ "{instruction}" ++ LF ++ LF
     ++ "### Response:") ].

Definition only_txt : string := "Only support txt file.".

Definition too_long_format : string :=
  "This demo supports tokens less than 32768, while the current is %d. "
  ++ "Please use material with less tokens.".

(** The defaults of [parse_config]; [0.6] and [0.9] as binary64 numbers. *)
Definition default_args : Args :=
  {| base_model := "/data1/pretrained-models/llama-7b-hf";
     cache_dir := "./cache";
     context_size := -1;
     flash_attn := true;
     temperature := S754_finite false 5404319552844595 (-53);
     top_p := S754_finite false 8106479329266893 (-53);
     max_gen_len := 512 |}.

(** *** [read_txt_file], [build_generator] and [main] *)

Section WithHost.

Variable host : Host.

Definition read_txt_file (material_txt : string) : M string :=
  lines <- call (EvOpen material_txt) (open_text host material_txt) ;;
  ret (fold_left append lines EmptyString).

(** [build_generator] returns the closure [response]; the result of the
    application to the captured arguments is that closure. *)
Definition build_generator (model : Model) (tokenizer : Tokenizer)
  (temperature top_p : float) (max_gen_len : Z) (use_cache : bool)
  : option File -> string -> M string :=
  fun material question =>
    match material with
    | None => ret only_txt
    | Some material =>
        parts <- lift (split (name material) ".") ;;
        ext <- lift (last_item parts) ;;
        if negb (ext =? "txt")%string then ret only_txt
        else
          material <- read_txt_file (name material) ;;
          prompt_no_input <- lift (getitem PROMPT_DICT "prompt_no_input") ;;
          asked <- lift (percent (LF ++ "%s") (AStr question)) ;;
          prompt <- lift (format_map prompt_no_input
                            [("instruction", material ++ asked)]) ;;
          inputs <- call (EvTokenize prompt) (Ok (encode tokenizer prompt)) ;;
          if Z.of_nat (List.length inputs) >? 32768
          then lift (percent too_long_format
                       (AInt (Z.of_nat (List.length inputs))))
          else
            let kwargs :=
              {| max_new_tokens := max_gen_len;
                 kw_temperature := temperature;
                 kw_top_p := top_p;
                 kw_use_cache := use_cache |} in
            emit EvEmptyCache ;;
            output <- call (EvGenerate inputs kwargs)
                        (generate model inputs kwargs) ;;
            out <- call (EvDecode output) (Ok (decode tokenizer output)) ;;
            pieces <- lift (split out prompt) ;;
            piece <- lift (item pieces 1) ;;
            let out := strip piece in
            emit (EvPrint ["out"; out]) ;;
            ret out
    end.

(** Lines 188 to 191 of [main]: the configuration after the RoPE-scaling
    step. *)
Definition scale_rope (context_size : Z) (config : Config) : result Config :=
  let orig_ctx_len := max_position_embeddings config in
  match orig_ctx_len with
  | None => Ok config
  | Some orig =>
      if negb (orig =? 0) && (context_size >? orig)
      then
        (try quotient <- true_div context_size orig;
         try ceiling <- math_ceil quotient;
         try scaling_factor <- float_of_int ceiling;
         Ok (set_rope_scaling config
               [("type", VStr "linear"); ("factor", VFloat scaling_factor)])
        )%result
      else Ok config
  end.

(** Line 207 of [main]: the conditional expression passed as
    [model_max_length]; comparing an [int] with [None] raises. *)
Definition model_max_length_arg (context_size : Z) (orig_ctx_len : option Z)
  : result Z :=
  match orig_ctx_len with
  | None => Raise TypeError
  | Some orig => Ok (if context_size >? orig then context_size else orig)
  end.

(** [main], up to the blocking [demo.launch]; the value returned is the
    handler the web form serves. *)
Definition main (args : Args) : M (option File -> string -> M string) :=
  (if flash_attn args then emit EvReplaceLlamaAttn else ret tt) ;;
  config <- call (EvAutoConfig (base_model args) (cache_dir args))
              (AutoConfig_from_pretrained host
                 (base_model args) (cache_dir args)) ;;
  let orig_ctx_len := max_position_embeddings config in
  config <- lift (scale_rope (context_size args) config) ;;
  model <- call (EvAutoModel (base_model args) config (cache_dir args))
             (AutoModelForCausalLM_from_pretrained host
                (base_model args) config (cache_dir args)) ;;
  emit (EvResizeTokenEmbeddings 32001) ;;
  model_max_length <-
    lift (model_max_length_arg (context_size args) orig_ctx_len) ;;
  tokenizer <-
    call (EvAutoTokenizer (base_model args) (cache_dir args) model_max_length)
      (AutoTokenizer_from_pretrained host
         (base_model args) (cache_dir args) model_max_length) ;;
  emit EvModelEval ;;
  model <- (if negb (String.ltb (torch_version host) "2")
               && negb (sys_platform host =? "win32")%string
            then call EvTorchCompile (Ok (torch_compile host model))
            else ret model) ;;
  let respond :=
    build_generator model tokenizer
      (temperature args) (top_p args) (max_gen_len args) true in
  emit EvInterface ;;
  emit EvQueue ;;
  emit EvLaunch ;;
  ret respond.

End WithHost.

(** *** Vocabulary of the statements *)

(** [s] ends in [suffix]. *)
Definition ends_with (suffix s : string) : Prop :=
  exists pre, s = pre ++ suffix.

(** The instruction prompt in the words of its description: the fixed
    template with [{instruction}] replaced by the document, a newline and
    the question. *)
Definition instruction_prompt (document question : string) : string :=
  prompt_head ++ (document ++ LF ++ question) ++ prompt_tail.

(** The message of the token-limit branch for a count [n]. *)
Definition too_long_message (n : Z) : string :=
  "This demo supports tokens less than 32768, while the current is "
  ++ str_of_int n ++ ". Please use material with less tokens.".

(** [s] with the prefix [p] cut off when it is there ([str.removeprefix]). *)
Fixpoint removeprefix (p s : string) : string :=
  match p, s with
  | EmptyString, _ => s
  | String a p', String b s' =>
      if (a =? b)%char && prefix p' s' then removeprefix p' s' else s
  | String _ _, EmptyString => s
  end.

(** The log records a call of the model's generation routine. *)
Definition calls_generate (log : list event) : Prop :=
  exists ids kwargs, In (EvGenerate ids kwargs) log.

(** The log records a call of the tokenizer on [prompt]. *)
Definition tokenizes (log : list event) (prompt : string) : Prop :=
  In (EvTokenize prompt) log.

(** The configuration handed to the model loader, when the log has one. *)
Fixpoint loaded_config (log : list event) : option Config :=
  match log with
  | [] => None
  | EvAutoModel _ config _ :: _ => Some config
  | _ :: log' => loaded_config log'
  end.

(** The [model_max_length] the tokenizer was built with, when the log has
    one. *)
Fixpoint tokenizer_max_length (log : list event) : option Z :=
  match log with
  | [] => None
  | EvAutoTokenizer _ _ n :: _ => Some n
  | _ :: log' => tokenizer_max_length log'
  end.

(** The log of [main] up to and including the configuration load. *)
Definition prologue (args : Args) : list event :=
  ((if flash_attn args then [EvReplaceLlamaAttn] else [])
   ++ [EvAutoConfig (base_model args) (cache_dir args)])%list.

(** The place of a call in the order [response] makes its calls in. *)
Definition stage (e : event) : option nat :=
  match e with
  | EvOpen _ => Some 0%nat
  | EvTokenize _ => Some 1%nat
  | EvEmptyCache => Some 2%nat
  | EvGenerate _ _ => Some 3%nat
  | EvDecode _ => Some 4%nat
  | EvPrint _ => Some 5%nat
  | _ => None
  end.

(** The number of calls of the model's generation routine in the log. *)
Fixpoint count_generate (log : list event) : nat :=
  match log with
  | [] => O
  | EvGenerate _ _ :: log' => S (count_generate log')
  | _ :: log' => count_generate log'
  end.



(** The keyword arguments of [model.generate] that [main] fixes from the
    command line. *)
Definition served_kwargs (args : Args) : GenerateKwargs :=
  {| max_new_tokens := max_gen_len args;
     kw_temperature := temperature args;
     kw_top_p := top_p args;
     kw_use_cache := true |}.

(** *** Sample surroundings, for running the script on concrete inputs *)

Module Samples.

(** One token per character: its code point. *)
Definition char_tokenizer : Tokenizer :=
  {| encode := fun s =>
       map (fun c => Z.of_nat (nat_of_ascii c)) (list_ascii_of_string s);
     decode := fun ids =>
       string_of_list_ascii (map (fun i => ascii_of_nat (Z.to_nat i)) ids) |}.

(** A tokenizer that yields [n] tokens whatever the prompt. *)
Definition fixed_tokenizer (n : Z) : Tokenizer :=
  {| encode := fun _ => repeat 0 (Z.to_nat n);
     decode := fun _ => EmptyString |}.

(** A model that returns its input followed by the tokens of [answer]. *)
Definition echo_model (answer : string) : Model :=
  {| generate := fun ids _ => Ok (ids ++ encode char_tokenizer answer)%list |}.

(** A model that repeats its input after a first answer and goes on. *)
Definition twice_model (first second : string) : Model :=
  {| generate := fun ids _ =>
       Ok (ids ++ encode char_tokenizer first
           ++ ids ++ encode char_tokenizer second)%list |}.

(** A model whose generation fails. *)
Definition failing_model : Model :=
  {| generate := fun _ _ => Raise (RuntimeError "CUDA out of memory") |}.

(** A model that puts a note before its input, answers, repeats the input
    and goes on. *)
Definition framed_model (note first second : string) : Model :=
  {| generate := fun ids _ =>
       Ok (encode char_tokenizer note ++ ids
           ++ encode char_tokenizer first
           ++ ids ++ encode char_tokenizer second)%list |}.

(** A model that returns no token at all. *)
Definition silent_model : Model :=
  {| generate := fun _ _ => Ok [] |}.

(** A host with two readable files and a repository whose configuration
    has [max_position_embeddings = orig]. *)
Definition sample_host (orig : option Z) : Host :=
  {| open_text := fun path =>
       if (path =? "notes.txt")%string then Ok ["Alpha" ++ LF; "Beta"]
       else if (path =? "txt")%string then Ok ["Gamma"]
       else Raise OSError;
     AutoConfig_from_pretrained := fun _ _ =>
       Ok {| max_position_embeddings := orig; rope_scaling := None |};
     AutoModelForCausalLM_from_pretrained := fun _ _ _ =>
       Ok (echo_model " Done. ");
     AutoTokenizer_from_pretrained := fun _ _ _ => Ok char_tokenizer;
     torch_compile := fun m => m;
     torch_version := "2.0.1";
     sys_platform := "linux" |}.


Definition notes : File := {| name := "notes.txt" |}.

(** The lines and the content of [notes] on the sample host. *)
Definition notes_lines : list string := ["Alpha" ++ LF; "Beta"].

Definition notes_text : string := "Alpha" ++ LF ++ "Beta".

Definition question : string := "What is said?".

(** The prompt formed from [notes] and [question], and a decoded output
    that repeats it. *)
Definition notes_prompt : string := instruction_prompt notes_text question.

Definition repeated_output : string :=
  notes_prompt ++ " A " ++ notes_prompt ++ " B".

Definition with_context_size (n : Z) : Args :=
  {| base_model := base_model default_args;
     cache_dir := cache_dir default_args;
     context_size := n;
     flash_attn := flash_attn default_args;
     temperature := temperature default_args;
     top_p := top_p default_args;
     max_gen_len := max_gen_len default_args |}.

(** [response] as [main] would build it on the sample host, for a given
    tokenizer and model. *)
Definition sample_response (tokenizer : Tokenizer) (model : Model)
  : option File -> string -> M string :=
  build_generator (sample_host (Some 4096)) model tokenizer
    (temperature default_args) (top_p default_args)
    (max_gen_len default_args) true.

End Samples.

End Demo.

(** ** Facts about the string operations *)

Module PyStrFacts.

Import PyStr.

Lemma append_assoc (a b c : string) : (a ++ b) ++ c = a ++ (b ++ c).
Proof.
  induction a as [|x a IH]; simpl; [reflexivity | now rewrite IH].
Qed.

Lemma append_nil_r (a : string) : a ++ "" = a.
Proof.
  induction a as [|x a IH]; simpl; [reflexivity | now rewrite IH].
Qed.

Lemma length_append (a b : string) :
  String.length (a ++ b) = (String.length a + String.length b)%nat.
Proof.
  induction a as [|x a IH]; simpl; [reflexivity | now rewrite IH].
Qed.

(** [prefix] decides being a prefix. *)
Lemma prefix_iff (p s : string) :
  prefix p s = true <-> exists rest, s = p ++ rest.
Proof.
  revert s; induction p as [|a p IH]; intros s.
  - split; [intros _; now exists s | intros _; now destruct s].
  - destruct s as [|b s]; simpl.
    + split; [discriminate | intros [rest H]; discriminate].
    + destruct (ascii_dec a b) as [->|Hab].
      * rewrite IH. split; intros [rest H]; exists rest.
        -- now rewrite H.
        -- now inversion H.
      * split; [discriminate | intros [rest H]; inversion H; congruence].
Qed.

Lemma prefix_append (p rest : string) : prefix p (p ++ rest) = true.
Proof. apply prefix_iff. now exists rest. Qed.

(** An occurrence in [String c s] starts at its head or lies in [s]. *)
Lemma occurs_cons (sep : string) (c : ascii) (s : string) :
  sep <> "" ->
  occurs sep (String c s) <-> prefix sep (String c s) = true \/ occurs sep s.
Proof.
  intros Hsep. split.
  - intros [pre [post H]]. destruct pre as [|x pre].
    + left. apply prefix_iff. now exists post.
    + right. inversion H. now exists pre, post.
  - intros [H | [pre [post H]]].
    + apply prefix_iff in H as [rest H]. now exists "", rest.
    + exists (String c pre), post. now rewrite H.
Qed.

Lemma occurs_length (sub s : string) :
  occurs sub s -> (String.length sub <= String.length s)%nat.
Proof.
  intros [pre [post ->]]. rewrite !length_append. lia.
Qed.

Lemma occurs_nil (sep : string) : sep <> "" -> ~ occurs sep "".
Proof.
  intros Hsep [pre [post H]].
  destruct pre; [destruct sep; [congruence | simpl in H; discriminate] | discriminate].
Qed.

Lemma split_go_nonempty (sep : string) (s : string) :
  forall skip cur, split_go sep skip cur s <> [].
Proof.
  induction s as [|c s IH]; intros skip cur; cbn [split_go]; [discriminate|].
  destruct skip; [|apply IH].
  destruct (prefix sep (String c s)); [discriminate | apply IH].
Qed.

(** Passing over the rest of a matched separator. *)
Lemma split_go_skip (sep x rest : string) :
  forall cur,
    split_go sep (String.length x) cur (x ++ rest) = split_go sep O cur rest.
Proof.
  induction x as [|c x IH]; intros cur; simpl; [reflexivity | apply IH].
Qed.

(** At a separator a piece ends and the scan resumes behind it. *)
Lemma split_go_match (sep rest cur : string) :
  sep <> "" ->
  split_go sep O cur (sep ++ rest) = cur :: split_go sep O "" rest.
Proof.
  intros Hsep. destruct sep as [|c sep]; [congruence|].
  change (String c sep ++ rest) with (String c (sep ++ rest)).
  cbn [split_go].
  change (String c (sep ++ rest)) with (String c sep ++ rest).
  rewrite prefix_append. cbn [String.length Nat.pred].
  now rewrite split_go_skip.
Qed.

(** Where no separator starts, the character joins the current piece. *)
Lemma split_go_step (sep : string) (c : ascii) (s cur : string) :
  prefix sep (String c s) = false ->
  split_go sep O cur (String c s) = split_go sep O (cur ++ String c "") s.
Proof. intros H. cbn [split_go]. now rewrite H. Qed.

(** A text without the separator is one piece. *)
Lemma split_go_absent (sep : string) (s : string) :
  sep <> "" -> ~ occurs sep s ->
  forall cur, split_go sep O cur s = [cur ++ s].
Proof.
  intros Hsep. induction s as [|c s IH]; intros Hno cur.
  - simpl. now rewrite append_nil_r.
  - assert (Hp : prefix sep (String c s) = false).
    { destruct (prefix sep (String c s)) eqn:E; [|reflexivity].
      exfalso. apply Hno. apply occurs_cons; auto. }
    rewrite split_go_step by exact Hp.
    rewrite IH.
    + now rewrite append_assoc.
    + intros H. apply Hno. apply occurs_cons; auto.
Qed.

(** There is a second piece exactly when the separator occurs. *)
Lemma split_go_second (sep : string) (s : string) :
  sep <> "" ->
  forall cur,
    (2 <= List.length (split_go sep O cur s))%nat <-> occurs sep s.
Proof.
  intros Hsep. induction s as [|c s IH]; intros cur.
  - simpl. split; [lia | intros H; now apply occurs_nil in H].
  - rewrite occurs_cons by exact Hsep.
    cbn [split_go]. destruct (prefix sep (String c s)) eqn:E.
    + split; [now left | intros _].
      cbn [List.length].
      pose proof (split_go_nonempty sep s (Nat.pred (String.length sep)) "") as Hne.
      destruct (split_go sep (Nat.pred (String.length sep)) "" s);
        [congruence | simpl; lia].
    + rewrite IH. split; [now right | intros [H|H]; [discriminate | exact H]].
Qed.

Lemma item_second (l : list string) :
  (exists x, item l 1 = Ok x) <-> (2 <= List.length l)%nat.
Proof.
  unfold item. destruct l as [|a [|b l]]; simpl.
  - split; [intros [x H]; discriminate | lia].
  - split; [intros [x H]; discriminate | lia].
  - split; [lia | intros _; now exists b].
Qed.

Lemma item_second_none (l : list string) :
  item l 1 = Raise IndexError <-> (List.length l < 2)%nat.
Proof.
  unfold item. destruct l as [|a [|b l]]; simpl.
  - split; [lia | reflexivity].
  - split; [lia | reflexivity].
  - split; [discriminate | lia].
Qed.

Lemma last_item_cons (x : string) (l : list string) :
  l <> [] -> last_item (x :: l) = last_item l.
Proof.
  intros Hl. unfold last_item. simpl.
  destruct (rev l) eqn:E.
  - apply (f_equal (@rev string)) in E. rewrite rev_involutive in E.
    simpl in E. congruence.
  - reflexivity.
Qed.

(** The last piece of a name split at its dots. *)
Lemma last_piece_txt_inv (s : string) :
  forall cur,
    last_item (split_go "." O cur s) = Ok "txt" ->
    (exists pre, s = pre ++ ".txt") \/ cur ++ s = "txt".
Proof.
  induction s as [|c s IH]; intros cur H.
  - right. simpl in H. rewrite append_nil_r. now inversion H.
  - cbn [split_go] in H.
    destruct (prefix "." (String c s)) eqn:E.
    + apply prefix_iff in E as [rest E]. inversion E; subst c rest.
      rewrite last_item_cons in H by apply split_go_nonempty.
      cbn [String.length Nat.pred] in H.
      apply IH in H as [[pre H] | H].
      * left. exists (String "." pre). now rewrite H.
      * left. exists "". simpl in H. now rewrite H.
    + apply IH in H as [[pre H] | H].
      * left. exists (String c pre). now rewrite H.
      * right. now rewrite append_assoc in H.
Qed.

Lemma last_piece_txt (pre : string) :
  forall cur, last_item (split_go "." O cur (pre ++ ".txt")) = Ok "txt".
Proof.
  induction pre as [|c pre IH]; intros cur.
  - reflexivity.
  - change (String c pre ++ ".txt") with (String c (pre ++ ".txt")).
    cbn [split_go].
    destruct (prefix "." (String c (pre ++ ".txt"))).
    + rewrite last_item_cons by apply split_go_nonempty. apply IH.
    + apply IH.
Qed.

Lemma last_item_total (l : list string) :
  l <> [] -> exists x, last_item l = Ok x.
Proof.
  intros Hl. unfold last_item. destruct (rev l) eqn:E.
  - apply (f_equal (@rev string)) in E. rewrite rev_involutive in E.
    simpl in E. congruence.
  - now exists s.
Qed.

(** The last piece of a name split at its dots is ["txt"] exactly when the
    name is ["txt"] or ends in [".txt"]. *)
Lemma extension_txt (nm : string) :
  last_item (split_go "." O "" nm) = Ok "txt" <->
  nm = "txt" \/ exists pre, nm = pre ++ ".txt".
Proof.
  split.
  - intros H. apply last_piece_txt_inv in H as [H | H]; [now right | now left].
  - intros [-> | [pre ->]]; [reflexivity | apply last_piece_txt].
Qed.

End PyStrFacts.

(** ** Facts about the binary64 operations *)

Module PyFloatFacts.

Import PyFloat.

(** [true_div] agrees with the Standard Library's reference division on the
    samples, which include ties, subnormal results, underflow and overflow. *)
Lemma true_div_agrees_on_samples :
  forallb agrees_with_SFdiv division_samples = true.
Proof. vm_compute. reflexivity. Qed.

Lemma floor_between (x p k : Z) :
  0 < p -> k * p <= x < (k + 1) * p -> x / p = k.
Proof.
  intros Hp H. symmetry. apply Z.div_unique with (r := x - k * p); lia.
Qed.

(** Rounding to nearest is within half a unit, and exact on integers. *)
Lemma div_half_even_spec (x y : Z) :
  0 <= x -> 0 < y ->
  - y <= 2 * (div_half_even x y * y - x) <= y /\
  (x mod y = 0 -> div_half_even x y = x / y).
Proof.
  intros Hx Hy. unfold div_half_even.
  pose proof (Z.div_mod x y ltac:(lia)) as E.
  pose proof (Z.mod_pos_bound x y Hy) as B.
  destruct (Z.compare_spec (2 * (x mod y)) y) as [C|C|C].
  - destruct (Z.even (x / y)); split; try nia; intros H0; lia.
  - split; [nia | reflexivity].
  - split; [nia | intros H0; lia].
Qed.

Lemma pow2_pos (n : Z) : 0 <= n -> 0 < 2 ^ n.
Proof. intros H. apply Z.pow_pos_nonneg; lia. Qed.

(** The scaled quotient reaches 2^52: the significand is normal. *)
Lemma log2_ratio_small (a b : Z) :
  0 < a < 2 ^ 53 -> 0 < b < 2 ^ 53 ->
  -53 <= log2_ratio a b <= 52 /\
  b * 2 ^ 52 <= a * 2 ^ (52 - log2_ratio a b).
Proof.
  intros Ha Hb.
  pose proof (Z.log2_spec a ltac:(lia)) as [La Ua].
  pose proof (Z.log2_spec b ltac:(lia)) as [Lb Ub].
  pose proof (Z.log2_nonneg a) as Na.
  pose proof (Z.log2_nonneg b) as Nb.
  assert (Ma : Z.log2 a < 53) by (apply Z.log2_lt_pow2; lia).
  assert (Mb : Z.log2 b < 53) by (apply Z.log2_lt_pow2; lia).
  rewrite Z.pow_succ_r in Ua, Ub by assumption.
  unfold log2_ratio.
  set (d := Z.log2 a - Z.log2 b).
  assert (Hfalse : b * 2 ^ 52 <= a * 2 ^ (52 - (d - 1))).
  { assert (E : 2 ^ Z.log2 a * 2 ^ (52 - (d - 1)) = 2 ^ Z.log2 b * 2 * 2 ^ 52).
    { rewrite <- Z.pow_add_r by lia.
      replace (Z.log2 a + (52 - (d - 1))) with (Z.log2 b + 1 + 52) by lia.
      rewrite !Z.pow_add_r by lia. lia. }
    pose proof (pow2_pos (52 - (d - 1)) ltac:(lia)).
    pose proof (pow2_pos 52 ltac:(lia)).
    nia. }
  destruct (0 <=? d) eqn:Hd.
  - apply Z.leb_le in Hd.
    destruct (b * 2 ^ d <=? a) eqn:R.
    + apply Z.leb_le in R. split; [lia|].
      replace 52 with (d + (52 - d)) at 1 by lia.
      rewrite Z.pow_add_r by lia.
      pose proof (pow2_pos (52 - d) ltac:(lia)). nia.
    + split; [lia | exact Hfalse].
  - apply Z.leb_gt in Hd.
    destruct (b <=? a * 2 ^ (- d)) eqn:R.
    + apply Z.leb_le in R. split; [lia|].
      replace (52 - d) with (- d + 52) by lia.
      rewrite Z.pow_add_r by lia.
      pose proof (pow2_pos 52 ltac:(lia)). nia.
    + split; [lia | exact Hfalse].
Qed.

(** The arithmetic heart: with a normal significand and a numerator below
    2^53, rounding the scaled quotient moves it across no integer. *)
Lemma scaled_rounding (a b p n : Z) :
  0 < a < 2 ^ 53 -> 0 < b -> 0 < p ->
  b * 2 ^ 52 <= a * p ->
  - b <= 2 * (n * b - a * p) <= b ->
  (a mod b = 0 -> n = a * p / b) ->
  0 < n /\ n / p = a / b /\ (- n) / p = (- a) / b /\
  (a mod b = 0 -> n = a / b * p).
Proof.
  intros Ha Hb Hp Hnorm Hn Hexact.
  pose proof (Z.div_mod a b ltac:(lia)) as E.
  pose proof (Z.mod_pos_bound a b Hb) as B.
  set (k := a / b) in *. set (r := a mod b) in *.
  assert (Hb2 : b < 2 * p).
  { change (2 ^ 52) with 4503599627370496 in Hnorm.
    change (2 ^ 53) with 9007199254740992 in Ha. nia. }
  assert (Hk : 0 <= k) by (apply Z.div_pos; lia).
  destruct (Z.eq_dec r 0) as [R0 | R0].
  - assert (En : n = k * p).
    { rewrite (Hexact R0). rewrite E, R0, Z.add_0_r.
      replace (b * k * p) with (k * p * b) by ring.
      apply Z.div_mul. lia. }
    assert (Kp : 0 < k) by nia.
    repeat split.
    + nia.
    + rewrite En. apply Z.div_mul. lia.
    + rewrite En. replace (- (k * p)) with (- k * p) by ring.
      rewrite Z.div_mul by lia.
      apply Z.div_unique with (r := 0); lia.
    + intros _. exact En.
  - assert (Lo : k * p < n) by nia.
    assert (Hi : n < (k + 1) * p) by nia.
    repeat split.
    + nia.
    + apply floor_between; lia.
    + transitivity (- k - 1).
      * apply floor_between; lia.
      * apply Z.div_unique with (r := b - r); lia.
    + intros H. contradiction.
Qed.

(** For operands below 2^53 the rounded quotient is a finite float whose
    integer part and ceiling are those of the exact quotient. *)
Lemma round_ratio_small (s : bool) (a b : Z) :
  0 < a < 2 ^ 53 -> 0 < b < 2 ^ 53 ->
  exists n t,
    0 <= t /\ 0 < n /\
    round_ratio s a b = Ok (S754_finite s (Z.to_pos n) (- t)) /\
    n / 2 ^ t = a / b /\ (- n) / 2 ^ t = (- a) / b /\
    (a mod b = 0 -> n = a / b * 2 ^ t).
Proof.
  intros Ha Hb.
  destruct (log2_ratio_small a b Ha Hb) as [Hlg Hnorm].
  unfold round_ratio.
  set (lg := log2_ratio a b) in *.
  replace (Z.max (lg - (prec - 1)) emin) with (- (52 - lg))
    by (unfold emin, emax, prec; lia).
  set (t0 := 52 - lg) in *.
  assert (Ht0 : 0 <= t0) by (unfold t0; lia).
  pose proof (pow2_pos t0 Ht0) as Hp.
  set (n0 := if 0 <=? - t0 then div_half_even a (b * 2 ^ (- t0))
             else div_half_even (a * 2 ^ (- - t0)) b).
  assert (En0 : n0 = div_half_even (a * 2 ^ t0) b).
  { unfold n0. destruct (0 <=? - t0) eqn:Z0.
    - apply Z.leb_le in Z0. replace t0 with 0 by lia.
      change (- 0) with 0. rewrite Z.pow_0_r, !Z.mul_1_r. reflexivity.
    - now rewrite Z.opp_involutive. }
  destruct (div_half_even_spec (a * 2 ^ t0) b ltac:(nia) ltac:(lia))
    as [Hhalf Hexact].
  rewrite <- En0 in Hhalf, Hexact.
  assert (Hexact' : a mod b = 0 -> n0 = a * 2 ^ t0 / b).
  { intros R0. apply Hexact.
    rewrite Z.mul_mod by lia. rewrite R0. reflexivity. }
  destruct (scaled_rounding a b (2 ^ t0) n0 Ha ltac:(lia) Hp Hnorm Hhalf
              Hexact') as (Hn0 & Hfl & Hce & Hex).
  destruct (n0 =? 2 ^ prec) eqn:Top.
  - apply Z.eqb_eq in Top.
    assert (Ht1 : 1 <= t0).
    { destruct (Z.eq_dec t0 0) as [T0|T0]; [|lia]. exfalso.
      rewrite T0, Z.pow_0_r in *. rewrite Z.div_1_r in Hfl.
      assert (a / b <= a) by (apply Z.div_le_upper_bound; nia).
      unfold prec in Top. lia. }
    assert (Ep : 2 ^ t0 = 2 * 2 ^ (t0 - 1)).
    { rewrite <- Z.pow_succ_r by lia. f_equal. lia. }
    assert (Etop : n0 = 2 * 2 ^ (prec - 1)) by (rewrite Top; reflexivity).
    exists (2 ^ (prec - 1)), (t0 - 1).
    replace (- t0 + 1) with (- (t0 - 1)) by lia.
    assert (Hq : 0 < 2 ^ (t0 - 1)) by (apply pow2_pos; lia).
    change (2 ^ (prec - 1) =? 0) with false. cbv iota.
    replace (emax - prec <? - (t0 - 1)) with false
      by (symmetry; apply Z.ltb_ge; unfold emax, prec; lia).
    refine (conj _ (conj _ (conj _ (conj _ (conj _ _))))).
    + lia.
    + reflexivity.
    + reflexivity.
    + rewrite <- Hfl, Etop, Ep. symmetry. apply Z.div_mul_cancel_l; lia.
    + rewrite <- Hce, Etop, Ep.
      replace (- (2 * 2 ^ (prec - 1))) with (2 * - 2 ^ (prec - 1)) by ring.
      symmetry. apply Z.div_mul_cancel_l; lia.
    + intros R0. specialize (Hex R0). rewrite Etop, Ep in Hex. lia.
  - apply Z.eqb_neq in Top.
    exists n0, t0.
    replace (n0 =? 0) with false by (symmetry; apply Z.eqb_neq; lia).
    replace (emax - prec <? - t0) with false
      by (symmetry; apply Z.ltb_ge; unfold emax, prec; lia).
    refine (conj _ (conj _ (conj _ (conj _ (conj _ _))))); auto.
Qed.

Lemma math_ceil_finite (s : bool) (n t : Z) :
  0 <= t -> 0 < n ->
  math_ceil (S754_finite s (Z.to_pos n) (- t)) =
  Ok (- ((- (if s then - n else n)) / 2 ^ t)).
Proof.
  intros Ht Hn. unfold math_ceil. f_equal.
  assert (Ev : (if s then Z.neg (Z.to_pos n) else Z.pos (Z.to_pos n)) =
               (if s then - n else n)).
  { destruct s; [rewrite <- Pos2Z.opp_pos|]; now rewrite Z2Pos.id. }
  rewrite Ev. destruct (0 <=? - t) eqn:E.
  - apply Z.leb_le in E. replace t with 0 by lia.
    change (- 0) with 0. rewrite Z.pow_0_r, Z.div_1_r. lia.
  - now rewrite Z.opp_involutive.
Qed.

(** For operands below 2^53, the ceiling of the rounded quotient is the
    ceiling of the exact one. *)
Lemma true_div_ceil (c m : Z) :
  m <> 0 -> Z.abs c < 2 ^ 53 -> Z.abs m < 2 ^ 53 ->
  exists q, true_div c m = Ok q /\ math_ceil q = Ok (ceil_div c m).
Proof.
  intros Hm Hc Hm'. unfold true_div, ceil_div.
  replace (m =? 0) with false by (symmetry; now apply Z.eqb_neq).
  destruct (Z.eq_dec c 0) as [-> | Hc0].
  - cbn [Z.eqb]. eexists; split; [reflexivity|].
    cbn [math_ceil Z.opp]. now rewrite Z.div_0_l.
  - replace (c =? 0) with false by (symmetry; now apply Z.eqb_neq).
    destruct (round_ratio_small (xorb (c <? 0) (m <? 0)) (Z.abs c) (Z.abs m)
                ltac:(lia) ltac:(lia))
      as (n & t & Ht & Hn & Hr & Hfl & Hce & _).
    rewrite Hr. eexists; split; [reflexivity|].
    rewrite math_ceil_finite by assumption. do 2 f_equal.
    destruct (Z.ltb_spec c 0) as [C|C], (Z.ltb_spec m 0) as [M|M];
      cbn [xorb].
    + rewrite Hce. rewrite !Z.abs_neq by lia.
      rewrite <- (Z.div_opp_opp (- c) m) by lia. reflexivity.
    + rewrite Z.opp_involutive, Hfl.
      rewrite Z.abs_neq, Z.abs_eq by lia. reflexivity.
    + rewrite Z.opp_involutive, Hfl.
      rewrite Z.abs_eq, Z.abs_neq by lia.
      rewrite <- (Z.div_opp_opp (- c) m) by lia.
      now rewrite Z.opp_involutive.
    + rewrite Hce. rewrite !Z.abs_eq by lia. reflexivity.
Qed.

(** An [int] below 2^53 converts to a float without rounding. *)
Lemma float_of_int_exact (k : Z) :
  Z.abs k < 2 ^ 53 ->
  exists x, float_of_int k = Ok x /\ is_integer x k.
Proof.
  intros Hk. unfold float_of_int.
  destruct (Z.eq_dec k 0) as [-> | Hk0].
  - eexists; split; reflexivity.
  - replace (k =? 0) with false by (symmetry; now apply Z.eqb_neq).
    destruct (round_ratio_small (k <? 0) (Z.abs k) 1 ltac:(lia) ltac:(lia))
      as (n & t & Ht & Hn & Hr & _ & _ & Hex).
    rewrite Hr. eexists; split; [reflexivity|].
    specialize (Hex (Z.mod_1_r _)). rewrite Z.div_1_r in Hex.
    unfold is_integer.
    assert (Ev : (if k <? 0 then Z.neg (Z.to_pos n) else Z.pos (Z.to_pos n)) =
                 k * 2 ^ t).
    { destruct (Z.ltb_spec k 0) as [K|K].
      - rewrite <- Pos2Z.opp_pos, Z2Pos.id by assumption. rewrite Hex.
        rewrite Z.abs_neq by lia. ring.
      - rewrite Z2Pos.id by assumption. rewrite Hex.
        rewrite Z.abs_eq by lia. reflexivity. }
    rewrite Ev. destruct (0 <=? - t) eqn:E.
    + apply Z.leb_le in E. replace t with 0 by lia.
      change (- 0) with 0. rewrite Z.pow_0_r. lia.
    + now rewrite Z.opp_involutive.
Qed.

(** The ceiling of a quotient is no larger in magnitude than the dividend. *)
Lemma ceil_div_small (c m bound : Z) :
  m <> 0 -> Z.abs c < bound -> Z.abs (ceil_div c m) < bound.
Proof.
  intros Hm Hc. unfold ceil_div.
  assert (H : Z.abs (- c / m) <= Z.abs (- c)).
  { destruct (Z.lt_trichotomy m 0) as [M | [M | M]]; [|lia|].
    - rewrite <- (Z.div_opp_opp (- c) m), Z.opp_involutive by lia.
      destruct (Z.le_gt_cases 0 c) as [C|C].
      + rewrite Z.abs_eq by (apply Z.div_pos; lia).
        rewrite Z.abs_neq by lia.
        apply Z.div_le_upper_bound; nia.
      + pose proof (Z.div_mod c (- m) ltac:(lia)) as E.
        pose proof (Z.mod_pos_bound c (- m) ltac:(lia)) as B.
        assert (c / - m < 0) by (apply Z.div_lt_upper_bound; lia).
        nia.
    - destruct (Z.le_gt_cases 0 (- c)) as [C|C].
      + rewrite Z.abs_eq by (apply Z.div_pos; lia).
        rewrite (Z.abs_eq (- c)) by lia.
        apply Z.div_le_upper_bound; nia.
      + pose proof (Z.div_mod (- c) m ltac:(lia)) as E.
        pose proof (Z.mod_pos_bound (- c) m ltac:(lia)) as B.
        assert (- c / m < 0) by (apply Z.div_lt_upper_bound; lia).
        nia. }
  lia.
Qed.

(** The three float operations of the RoPE-scaling step, on operands below
    2^53: the factor is the ceiling of the exact quotient. *)
Lemma scaling_factor_exact (c m : Z) :
  m <> 0 -> Z.abs c < 2 ^ 53 -> Z.abs m < 2 ^ 53 ->
  exists x,
    (try quotient <- true_div c m;
     try ceiling <- math_ceil quotient;
     float_of_int ceiling)%result = Ok x /\
    is_integer x (ceil_div c m).
Proof.
  intros Hm Hc Hm'.
  destruct (true_div_ceil c m Hm Hc Hm') as (q & Hq & Hceil).
  destruct (float_of_int_exact (ceil_div c m)) as (x & Hx & Hint).
  { now apply ceil_div_small. }
  exists x. split; [|exact Hint].
  rewrite Hq. cbn [rbind]. rewrite Hceil. cbn [rbind]. exact Hx.
Qed.

End PyFloatFacts.

(** ** Facts about the script, and the claims *)

Module DemoFacts.

Import PyStr PyFloat Demo PyStrFacts PyFloatFacts.

Section Response.

Variable host : Host.
Variable model : Model.
Variable tokenizer : Tokenizer.
Variables temperature top_p : float.
Variable max_gen_len : Z.
Variable use_cache : bool.

Local Abbreviation response :=
  (build_generator host model tokenizer temperature top_p max_gen_len
     use_cache).

Local Abbreviation kwargs :=
  {| max_new_tokens := max_gen_len;
     kw_temperature := temperature;
     kw_top_p := top_p;
     kw_use_cache := use_cache |}.

(** The template is its head, the field and its tail. *)
Lemma template_shape :
  getitem PROMPT_DICT "prompt_no_input" =
  Ok (prompt_head ++ "{instruction}" ++ prompt_tail).
Proof. reflexivity. Qed.

Lemma asked_percent (question : string) :
  percent (LF ++ "%s") (AStr question) = Ok (LF ++ question).
Proof.
  replace (LF ++ question) with (LF ++ (question ++ ""))
    by (now rewrite append_nil_r).
  reflexivity.
Qed.

Lemma format_template (instruction : string) :
  format_map (prompt_head ++ "{instruction}" ++ prompt_tail)
    [("instruction", instruction)] =
  Ok (prompt_head ++ instruction ++ prompt_tail).
Proof. reflexivity. Qed.

(** Formatting the template puts the document, a newline and the question
    in place of the field. *)
Lemma format_prompt (document question : string) :
  (try prompt_no_input <- getitem PROMPT_DICT "prompt_no_input";
   try asked <- percent (LF ++ "%s") (AStr question);
   format_map prompt_no_input [("instruction", document ++ asked)])%result =
  Ok (instruction_prompt document question).
Proof.
  replace (instruction_prompt document question)
    with (instruction_prompt document (question ++ ""))
    by (now rewrite append_nil_r).
  reflexivity.
Qed.

Lemma too_long_percent (n : Z) :
  percent too_long_format (AInt n) = Ok (too_long_message n).
Proof. reflexivity. Qed.

Lemma instruction_prompt_nonempty (document question : string) :
  exists c rest, instruction_prompt document question = String c rest.
Proof. eexists _, _. reflexivity. Qed.

(** [response] on an uploaded file, branch by branch. *)
Lemma response_cases (f : File) (question : string) :
  exists ext,
    last_item (split_go "." O "" (name f)) = Ok ext /\
    run (response (Some f) question) =
    if negb (ext =? "txt")%string then (Ok only_txt, [])
    else
      match open_text host (name f) with
      | Raise e => (Raise e, [EvOpen (name f)])
      | Ok lines =>
          let prompt :=
            instruction_prompt (fold_left append lines "") question in
          let inputs := encode tokenizer prompt in
          let n := Z.of_nat (List.length inputs) in
          if n >? 32768
          then (Ok (too_long_message n),
                [EvOpen (name f); EvTokenize prompt])
          else
            match generate model inputs kwargs with
            | Raise e =>
                (Raise e,
                 [EvOpen (name f); EvTokenize prompt; EvEmptyCache;
                  EvGenerate inputs kwargs])
            | Ok output =>
                match item (split_go prompt O "" (decode tokenizer output)) 1
                with
                | Raise e =>
                    (Raise e,
                     [EvOpen (name f); EvTokenize prompt; EvEmptyCache;
                      EvGenerate inputs kwargs; EvDecode output])
                | Ok piece =>
                    (Ok (strip piece),
                     [EvOpen (name f); EvTokenize prompt; EvEmptyCache;
                      EvGenerate inputs kwargs; EvDecode output;
                      EvPrint ["out"; strip piece]])
                end
            end
      end.
Proof.
  destruct (last_item_total (split_go "." O "" (name f)))
    as [ext Hext]; [apply split_go_nonempty|].
  exists ext. split; [exact Hext|].
  unfold build_generator, run.
  unfold bind at 1. unfold lift at 1. cbn [split].
  unfold bind at 1. unfold lift at 1. rewrite Hext.
  destruct (negb (ext =? "txt")%string); [reflexivity|].
  unfold bind at 1. unfold read_txt_file at 1.
  unfold bind at 1. unfold call at 1.
  destruct (open_text host (name f)) as [lines | e]; [|reflexivity].
  cbn [app]. unfold ret at 1.
  unfold bind at 1. unfold lift at 1. rewrite template_shape.
  unfold bind at 1. unfold lift at 1. rewrite asked_percent.
  unfold bind at 1. unfold lift at 1. rewrite format_template.
  fold (instruction_prompt (fold_left append lines "") question).
  set (prompt := instruction_prompt (fold_left append lines "") question).
  unfold bind at 1. unfold call at 1. cbn [app].
  set (inputs := encode tokenizer prompt).
  destruct (Z.of_nat (List.length inputs) >? 32768).
  { unfold lift. now rewrite too_long_percent. }
  unfold bind at 1. unfold emit at 1. unfold call at 1. cbn [app].
  unfold bind at 1. unfold call at 1. cbn [app].
  destruct (generate model inputs kwargs) as [output | e]; [|reflexivity].
  unfold bind at 1. unfold call at 1. cbn [app].
  unfold bind at 1. unfold lift at 1.
  destruct (instruction_prompt_nonempty (fold_left append lines "") question)
    as (c & rest & Hprompt).
  fold prompt in Hprompt.
  unfold split. rewrite Hprompt. rewrite <- Hprompt.
  unfold bind at 1. unfold lift at 1.
  destruct (item (split_go prompt O "" (decode tokenizer output)) 1)
    as [piece | e]; reflexivity.
Qed.

Lemma accepted_extension (f : File) :
  ends_with ".txt" (name f) \/ name f = "txt" <->
  last_item (split_go "." O "" (name f)) = Ok "txt".
Proof.
  rewrite extension_txt. unfold ends_with. tauto.
Qed.

(** [response] on a file that passes the extension test and can be read. *)
Lemma response_accepted (f : File) (question : string) (lines : list string) :
  ends_with ".txt" (name f) \/ name f = "txt" ->
  open_text host (name f) = Ok lines ->
  run (response (Some f) question) =
  let prompt := instruction_prompt (fold_left append lines "") question in
  let inputs := encode tokenizer prompt in
  let n := Z.of_nat (List.length inputs) in
  if n >? 32768
  then (Ok (too_long_message n), [EvOpen (name f); EvTokenize prompt])
  else
    match generate model inputs kwargs with
    | Raise e =>
        (Raise e,
         [EvOpen (name f); EvTokenize prompt; EvEmptyCache;
          EvGenerate inputs kwargs])
    | Ok output =>
        match item (split_go prompt O "" (decode tokenizer output)) 1 with
        | Raise e =>
            (Raise e,
             [EvOpen (name f); EvTokenize prompt; EvEmptyCache;
              EvGenerate inputs kwargs; EvDecode output])
        | Ok piece =>
            (Ok (strip piece),
             [EvOpen (name f); EvTokenize prompt; EvEmptyCache;
              EvGenerate inputs kwargs; EvDecode output;
              EvPrint ["out"; strip piece]])
        end
    end.
Proof.
  intros Hext Hopen. apply accepted_extension in Hext.
  destruct (response_cases f question) as (ext & Hext' & Hrun).
  rewrite Hext in Hext'. injection Hext' as <-.
  rewrite Hrun, Hopen. reflexivity.
Qed.

Lemma response_rejected (f : File) (question : string) :
  ~ (ends_with ".txt" (name f) \/ name f = "txt") ->
  run (response (Some f) question) = (Ok only_txt, []).
Proof.
  intros Hext. rewrite accepted_extension in Hext.
  destruct (response_cases f question) as (ext & Hext' & Hrun).
  rewrite Hrun.
  destruct (String.eqb_spec ext "txt") as [-> | Hne]; [contradiction|].
  reflexivity.
Qed.

Lemma too_long_is_not_only_txt (n : Z) : too_long_message n <> only_txt.
Proof. discriminate. Qed.

Lemma gtb_false (a b : Z) : a <= b -> (a >? b) = false.
Proof. intros H. rewrite Z.gtb_ltb. now apply Z.ltb_ge. Qed.

Lemma removeprefix_append (p rest : string) :
  removeprefix p (p ++ rest) = rest.
Proof.
  induction p as [|a p IH]; [reflexivity|].
  cbn [append removeprefix].
  now rewrite Ascii.eqb_refl, prefix_append.
Qed.

(** The piece behind the first occurrence of the prompt, when the decoded
    output starts with the prompt and does not repeat it. *)
Lemma second_piece (prompt continuation : string) :
  prompt <> "" -> ~ occurs prompt continuation ->
  item (split_go prompt O "" (prompt ++ continuation)) 1 = Ok continuation.
Proof.
  intros Hp Hno.
  rewrite split_go_match by exact Hp.
  now rewrite split_go_absent.
Qed.

Lemma instruction_prompt_not_nil (document question : string) :
  instruction_prompt document question <> "".
Proof. discriminate. Qed.

Ltac in_log :=
  cbn [In snd]; repeat first [left; reflexivity | right].

Ltac not_in_log H :=
  cbn [In snd] in H;
  repeat match type of H with
         | _ \/ _ => destruct H as [H | H]; [try discriminate H|]
         | False => contradiction
         end.

(** C1: when the formatted prompt of a readable .txt upload tokenizes to
    more than 32768 tokens, [response] returns the message that names the
    limit 32768 and the actual count, having only opened the file and
    tokenized the prompt: the model's generation routine is not called.  At
    exactly 32768 tokens the request goes on to generation. *)
Theorem token_limit_refusal (f : File) (question : string)
  (lines : list string) :
  ends_with ".txt" (name f) ->
  open_text host (name f) = Ok lines ->
  let prompt := instruction_prompt (fold_left append lines "") question in
  let n := Z.of_nat (List.length (encode tokenizer prompt)) in
  (32768 < n ->
   run (response (Some f) question) =
     (Ok (too_long_message n), [EvOpen (name f); EvTokenize prompt]) /\
   ~ calls_generate (snd (run (response (Some f) question)))) /\
  (n = 32768 ->
   In (EvGenerate (encode tokenizer prompt) kwargs)
     (snd (run (response (Some f) question)))).
Proof.
  intros Hext Hopen prompt n.
  rewrite (response_accepted f question lines (or_introl Hext) Hopen).
  cbv zeta. fold prompt. fold n. split.
  - intros Hn. apply Z.gtb_lt in Hn. rewrite Hn. split; [reflexivity|].
    intros (ids & kw & H). cbn [snd] in H. not_in_log H.
  - intros Hn. rewrite Hn. cbn [Z.gtb Z.compare Pos.compare Pos.compare_cont].
    destruct (generate model (encode tokenizer prompt) kwargs) as [output|e];
      [|cbn [snd]; in_log].
    destruct (item _ 1); cbn [snd]; in_log.
Qed.

(** C2, as amended: [response] answers "Only support txt file." exactly for
    the uploads whose name neither ends in ".txt" nor is "txt" itself; for
    every other name, so for every name ending in ".txt", that branch is
    not taken and the file is opened. *)
Theorem extension_rejection (f : File) (question : string) :
  (~ (ends_with ".txt" (name f) \/ name f = "txt") ->
   run (response (Some f) question) = (Ok only_txt, [])) /\
  (ends_with ".txt" (name f) \/ name f = "txt" ->
   exists r log,
     run (response (Some f) question) = (r, EvOpen (name f) :: log)).
Proof.
  split.
  - apply response_rejected.
  - intros Hext. apply accepted_extension in Hext.
    destruct (response_cases f question) as (ext & Hext' & Hrun).
    rewrite Hext in Hext'. injection Hext' as <-.
    rewrite Hrun. cbn [String.eqb Ascii.eqb Bool.eqb negb].
    destruct (open_text host (name f)) as [lines|e]; [|now eexists _, _].
    cbv zeta. destruct (_ >? 32768); [now eexists _, _|].
    destruct (generate model _ kwargs); [|now eexists _, _].
    destruct (item _ 1); now eexists _, _.
Qed.

(** C3, as amended: on token-length overflow [response] neither truncates
    the prompt nor calls the model's generation routine: the one prompt it
    tokenizes is the full formatted prompt, and the request is refused with
    the token-limit message. *)
Theorem overflow_is_refused (f : File) (question : string)
  (lines : list string) :
  ends_with ".txt" (name f) ->
  open_text host (name f) = Ok lines ->
  let prompt := instruction_prompt (fold_left append lines "") question in
  let n := Z.of_nat (List.length (encode tokenizer prompt)) in
  32768 < n ->
  let '(r, log) := run (response (Some f) question) in
  r = Ok (too_long_message n) /\
  (forall p, tokenizes log p -> p = prompt) /\
  ~ calls_generate log.
Proof.
  intros Hext Hopen prompt n Hn.
  rewrite (response_accepted f question lines (or_introl Hext) Hopen).
  cbv zeta. fold prompt. fold n.
  apply Z.gtb_lt in Hn. rewrite Hn. split; [reflexivity|]. split.
  - intros p H. unfold tokenizes in H. not_in_log H. now injection H.
  - intros (ids & kw & H). not_in_log H.
Qed.

(** C5, as amended: for a readable .txt upload within the token limit, when
    the decoded generation output is the formatted prompt followed by a
    continuation in which the prompt does not occur again, [response]
    returns that continuation, which is the decoded output with the prompt
    prefix removed, with surrounding whitespace stripped. *)
Theorem answer_is_stripped_continuation (f : File) (question : string)
  (lines : list string) (output : list Z) (continuation : string) :
  ends_with ".txt" (name f) ->
  open_text host (name f) = Ok lines ->
  let prompt := instruction_prompt (fold_left append lines "") question in
  let inputs := encode tokenizer prompt in
  Z.of_nat (List.length inputs) <= 32768 ->
  generate model inputs kwargs = Ok output ->
  decode tokenizer output = prompt ++ continuation ->
  ~ occurs prompt continuation ->
  fst (run (response (Some f) question)) = Ok (strip continuation) /\
  strip continuation = strip (removeprefix prompt (decode tokenizer output)).
Proof.
  intros Hext Hopen prompt inputs Hn Hgen Hdec Hno.
  rewrite (response_accepted f question lines (or_introl Hext) Hopen).
  cbv zeta. fold prompt. fold inputs.
  rewrite (gtb_false _ _ Hn).
  rewrite Hgen, Hdec.
  rewrite second_piece; [|apply instruction_prompt_not_nil|exact Hno].
  split; [reflexivity|]. now rewrite removeprefix_append.
Qed.

(** C6: every value [response] returns is the non-.txt message (before any
    call leaves the script), the token-limit message for a count above
    32768 (without generation), or a generation result: the stripped piece
    behind the prompt in the decoded output of a generation call.  The two messages differ.  No exception is turned
    into a message: one raised by opening the file or by generation is what
    [response] raises. *)
Theorem two_failure_messages (material : option File) (question : string) :
  (forall s,
     fst (run (response material question)) = Ok s ->
     (s = only_txt /\ snd (run (response material question)) = []) \/
     (exists n,
        32768 < n /\ s = too_long_message n /\
        ~ calls_generate (snd (run (response material question)))) \/
     (exists prompt output piece,
        tokenizes (snd (run (response material question))) prompt /\
        In (EvGenerate (encode tokenizer prompt) kwargs)
          (snd (run (response material question))) /\
        generate model (encode tokenizer prompt) kwargs = Ok output /\
        item (split_go prompt O "" (decode tokenizer output)) 1 = Ok piece /\
        s = strip piece)) /\
  (forall n, too_long_message n <> only_txt) /\
  (forall f e,
     material = Some f ->
     ends_with ".txt" (name f) \/ name f = "txt" ->
     open_text host (name f) = Raise e ->
     fst (run (response material question)) = Raise e) /\
  (forall inputs e,
     In (EvGenerate inputs kwargs) (snd (run (response material question))) ->
     generate model inputs kwargs = Raise e ->
     fst (run (response material question)) = Raise e) /\
  fst (run (response None question)) = Ok only_txt /\
  (forall f,
     ~ (ends_with ".txt" (name f) \/ name f = "txt") ->
     fst (run (response (Some f) question)) = Ok only_txt) /\
  (forall f lines,
     ends_with ".txt" (name f) ->
     open_text host (name f) = Ok lines ->
     let prompt := instruction_prompt (fold_left append lines "") question in
     let n := Z.of_nat (List.length (encode tokenizer prompt)) in
     32768 < n ->
     fst (run (response (Some f) question)) = Ok (too_long_message n)).
Proof.
  assert (Hboth :
    fst (run (response None question)) = Ok only_txt /\
    (forall f,
       ~ (ends_with ".txt" (name f) \/ name f = "txt") ->
       fst (run (response (Some f) question)) = Ok only_txt) /\
    (forall f lines,
       ends_with ".txt" (name f) ->
       open_text host (name f) = Ok lines ->
       let prompt :=
         instruction_prompt (fold_left append lines "") question in
       let n := Z.of_nat (List.length (encode tokenizer prompt)) in
       32768 < n ->
       fst (run (response (Some f) question)) = Ok (too_long_message n))).
  { split; [reflexivity|]. split.
    - intros f Hext. now rewrite response_rejected.
    - intros f lines Hext Hopen prompt n Hn.
      rewrite (response_accepted f question lines (or_introl Hext) Hopen).
      cbv zeta. fold prompt. fold n.
      apply Z.gtb_lt in Hn. now rewrite Hn. }
  enough (Hmain :
    (forall s,
       fst (run (response material question)) = Ok s ->
       (s = only_txt /\ snd (run (response material question)) = []) \/
       (exists n,
          32768 < n /\ s = too_long_message n /\
          ~ calls_generate (snd (run (response material question)))) \/
       (exists prompt output piece,
          tokenizes (snd (run (response material question))) prompt /\
          In (EvGenerate (encode tokenizer prompt) kwargs)
            (snd (run (response material question))) /\
          generate model (encode tokenizer prompt) kwargs = Ok output /\
          item (split_go prompt O "" (decode tokenizer output)) 1 = Ok piece /\
          s = strip piece)) /\
    (forall f e,
       material = Some f ->
       ends_with ".txt" (name f) \/ name f = "txt" ->
       open_text host (name f) = Raise e ->
       fst (run (response material question)) = Raise e) /\
    (forall inputs e,
       In (EvGenerate inputs kwargs)
         (snd (run (response material question))) ->
       generate model inputs kwargs = Raise e ->
       fst (run (response material question)) = Raise e)).
  { destruct Hmain as (H1 & H2 & H3).
    split; [exact H1|]. split; [apply too_long_is_not_only_txt|].
    split; [exact H2|]. split; [exact H3 | exact Hboth]. }
  clear Hboth. split.
  - intros s Hs. destruct material as [f|]; [|left; now injection Hs as <-].
    destruct (response_cases f question) as (ext & _ & Hrun).
    rewrite Hrun in *. clear Hrun.
    destruct (negb (ext =? "txt")%string);
      [left; now injection Hs as <-|].
    destruct (open_text host (name f)) as [lines|e]; [|discriminate Hs].
    cbv zeta in *.
    set (prompt := instruction_prompt (fold_left append lines "") question)
      in *.
    destruct (Z.of_nat (List.length (encode tokenizer prompt)) >? 32768)
      eqn:Hn.
    + right; left. injection Hs as <-. eexists. split; [|split].
      * apply Z.gtb_lt. exact Hn.
      * reflexivity.
      * intros (ids & kw & H). not_in_log H.
    + destruct (generate model (encode tokenizer prompt) kwargs)
        as [output|e] eqn:Hgen; [|discriminate Hs].
      destruct (item _ 1) as [piece|e] eqn:Hitem; [|discriminate Hs].
      right; right. injection Hs as <-.
      exists prompt, output, piece.
      split; [unfold tokenizes; in_log|]. split; [in_log|].
      split; [exact Hgen|]. split; [exact Hitem | reflexivity].
  - split.
    + intros f e -> Hext Hopen. apply accepted_extension in Hext.
      destruct (response_cases f question) as (ext & Hext' & Hrun).
      rewrite Hext in Hext'. injection Hext' as <-.
      now rewrite Hrun, Hopen.
    + intros inputs e Hin Hgen.
      destruct material as [f|]; [|destruct Hin].
      destruct (response_cases f question) as (ext & _ & Hrun).
      rewrite Hrun in *. clear Hrun.
      destruct (negb (ext =? "txt")%string); [destruct Hin|].
      destruct (open_text host (name f)) as [lines|e'];
        [|cbn [snd] in Hin; not_in_log Hin].
      cbv zeta in *.
      set (prompt := instruction_prompt (fold_left append lines "") question)
        in *.
      destruct (Z.of_nat (List.length (encode tokenizer prompt)) >? 32768);
        [cbn [snd] in Hin; not_in_log Hin|].
      assert (Hids : inputs = encode tokenizer prompt).
      { destruct (generate model (encode tokenizer prompt) kwargs);
          [destruct (item _ 1)|];
          cbn [snd] in Hin; not_in_log Hin; now injection Hin. }
      subst inputs. now rewrite Hgen.
Qed.

(** C7: for a readable .txt upload with content [d] and a question [q], the
    tokenizer is called, and only on the fixed template with the
    instruction field replaced by [d], a newline and [q]. *)
Theorem prompt_is_template_instance (f : File) (question : string)
  (lines : list string) :
  ends_with ".txt" (name f) ->
  open_text host (name f) = Ok lines ->
  let d := fold_left append lines "" in
  getitem PROMPT_DICT "prompt_no_input" =
    Ok (prompt_head ++ "{instruction}" ++ prompt_tail) /\
  forall p,
    tokenizes (snd (run (response (Some f) question))) p <->
    p = prompt_head ++ (d ++ LF ++ question) ++ prompt_tail.
Proof.
  intros Hext Hopen d. split; [reflexivity|]. intros p.
  rewrite (response_accepted f question lines (or_introl Hext) Hopen).
  cbv zeta. fold d. fold (instruction_prompt d question).
  unfold tokenizes.
  destruct (_ >? 32768);
    [|destruct (generate model _ kwargs); [destruct (item _ 1)|]];
    cbn [snd]; (split; [intros H; not_in_log H; now injection H
                       | intros ->; in_log]).
Qed.

(** C8: without an upload [response] answers "Only support txt file." and
    nothing leaves the script: no file is read, neither the tokenizer nor
    the model is called. *)
Theorem no_upload_is_rejected (question : string) :
  run (response None question) = (Ok only_txt, []).
Proof. reflexivity. Qed.

(** C9: the prompt-stripping step takes element 1 of the decoded output
    split at the prompt; that element exists exactly when the prompt occurs
    in the decoded output.  When it does, [response] returns a value; when
    it does not, [response] fails with [IndexError]. *)
Theorem strip_step_needs_prompt (f : File) (question : string)
  (lines : list string) (output : list Z) :
  ends_with ".txt" (name f) ->
  open_text host (name f) = Ok lines ->
  let prompt := instruction_prompt (fold_left append lines "") question in
  let inputs := encode tokenizer prompt in
  Z.of_nat (List.length inputs) <= 32768 ->
  generate model inputs kwargs = Ok output ->
  let out := decode tokenizer output in
  (split out prompt = Ok (split_go prompt O "" out)) /\
  ((exists piece, item (split_go prompt O "" out) 1 = Ok piece) <->
   occurs prompt out) /\
  (occurs prompt out ->
   exists s, fst (run (response (Some f) question)) = Ok s) /\
  (~ occurs prompt out ->
   fst (run (response (Some f) question)) = Raise IndexError).
Proof.
  intros Hext Hopen prompt inputs Hn Hgen out.
  assert (Hp : prompt <> "") by apply instruction_prompt_not_nil.
  assert (Hin : (exists piece, item (split_go prompt O "" out) 1 = Ok piece)
                <-> occurs prompt out).
  { rewrite item_second. now apply split_go_second. }
  rewrite (response_accepted f question lines (or_introl Hext) Hopen).
  cbv zeta. fold prompt. fold inputs.
  rewrite (gtb_false _ _ Hn).
  rewrite Hgen. fold out.
  split; [reflexivity|]. split; [exact Hin|]. split.
  - intros Hocc. apply Hin in Hocc as [piece Hpiece].
    rewrite Hpiece. now eexists.
  - intros Hno.
    destruct (item (split_go prompt O "" out) 1) as [piece|e] eqn:Hitem.
    + exfalso. apply Hno, Hin. now exists piece.
    + cbn [fst]. f_equal. unfold item in Hitem.
      destruct (nth_error _ 1); [discriminate | now injection Hitem].
Qed.

End Response.
Section Main.

Variable host : Host.
Variable args : Args.

Local Abbreviation base := (base_model args).
Local Abbreviation cache := (cache_dir args).

Local Abbreviation prologue := (Demo.prologue args).

(** [main], step by step. *)
Lemma main_cases :
  run (main host args) =
  match AutoConfig_from_pretrained host base cache with
  | Raise e => (Raise e, prologue)
  | Ok config =>
      match scale_rope (context_size args) config with
      | Raise e => (Raise e, prologue)
      | Ok scaled =>
          let loading := (prologue ++ [EvAutoModel base scaled cache])%list in
          match AutoModelForCausalLM_from_pretrained host base scaled cache
          with
          | Raise e => (Raise e, loading)
          | Ok model =>
              match model_max_length_arg (context_size args)
                      (max_position_embeddings config) with
              | Raise e =>
                  (Raise e, (loading ++ [EvResizeTokenEmbeddings 32001])%list)
              | Ok len =>
                  let built :=
                    (loading ++ [EvResizeTokenEmbeddings 32001;
                                 EvAutoTokenizer base cache len])%list in
                  match AutoTokenizer_from_pretrained host base cache len
                  with
                  | Raise e => (Raise e, built)
                  | Ok tokenizer =>
                      if negb (String.ltb (torch_version host) "2")
                         && negb (sys_platform host =? "win32")%string
                      then
                        (Ok (build_generator host (torch_compile host model)
                               tokenizer (temperature args) (top_p args)
                               (max_gen_len args) true),
                         (built ++ [EvModelEval; EvTorchCompile;
                                    EvInterface; EvQueue; EvLaunch])%list)
                      else
                        (Ok (build_generator host model tokenizer
                               (temperature args) (top_p args)
                               (max_gen_len args) true),
                         (built ++ [EvModelEval; EvInterface; EvQueue;
                                    EvLaunch])%list)
                  end
              end
          end
      end
  end.
Proof.
  unfold main, run, Demo.prologue.
  unfold bind at 1.
  assert (E : forall log : list event,
             (if flash_attn args then emit EvReplaceLlamaAttn else ret tt) log
             = (Ok tt, log ++ (if flash_attn args
                              then [EvReplaceLlamaAttn] else []))%list).
  { intros log. destruct (flash_attn args); cbn.
    - reflexivity.
    - now rewrite app_nil_r. }
  rewrite E. cbn [app].
  unfold bind at 1. unfold call at 1.
  destruct (AutoConfig_from_pretrained host base cache) as [config|e];
    [|reflexivity].
  unfold bind at 1. unfold lift at 1.
  destruct (scale_rope (context_size args) config) as [scaled|e];
    [|reflexivity].
  unfold bind at 1. unfold call at 1.
  destruct (AutoModelForCausalLM_from_pretrained host base scaled cache)
    as [model|e]; [|reflexivity].
  unfold bind at 1. unfold emit at 1. unfold call at 1.
  unfold bind at 1. unfold lift at 1.
  destruct (model_max_length_arg (context_size args)
              (max_position_embeddings config)) as [len|e]; [|reflexivity].
  unfold bind at 1. unfold call at 1.
  destruct (AutoTokenizer_from_pretrained host base cache len)
    as [tokenizer|e]; cbv zeta; rewrite <- !app_assoc; [|reflexivity].
  unfold bind at 1. unfold emit at 1. unfold call at 1.
  unfold bind at 1.
  destruct (negb (String.ltb (torch_version host) "2")
            && negb (sys_platform host =? "win32")%string);
    cbn; rewrite <- !app_assoc; reflexivity.
Qed.

Lemma loaded_config_prologue (rest : list event) :
  loaded_config (prologue ++ rest) = loaded_config rest.
Proof. unfold Demo.prologue. now destruct (flash_attn args). Qed.

Lemma tokenizer_max_length_prologue (rest : list event) :
  tokenizer_max_length (prologue ++ rest) = tokenizer_max_length rest.
Proof. unfold Demo.prologue. now destruct (flash_attn args). Qed.

Lemma loaded_config_only_prologue : loaded_config prologue = None.
Proof. unfold Demo.prologue. now destruct (flash_attn args). Qed.

Lemma tokenizer_max_length_only_prologue :
  tokenizer_max_length prologue = None.
Proof. unfold Demo.prologue. now destruct (flash_attn args). Qed.

(** The RoPE-scaling step on a configuration that has a context length. *)
Lemma scale_rope_present (c m : Z) (config : Config) :
  max_position_embeddings config = Some m ->
  (c <= m \/ m = 0 -> scale_rope c config = Ok config) /\
  (m < c -> m <> 0 -> Z.abs c < 2 ^ 53 -> Z.abs m < 2 ^ 53 ->
   exists x,
     scale_rope c config =
       Ok (set_rope_scaling config
             [("type", VStr "linear"); ("factor", VFloat x)]) /\
     is_integer x (ceil_div c m)).
Proof.
  intros Hm. unfold scale_rope. rewrite Hm. split.
  - intros [H | H].
    + rewrite (gtb_false _ _ H). now rewrite andb_false_r.
    + subst m. reflexivity.
  - intros Hlt Hne Hc Hb.
    replace (m =? 0) with false by (symmetry; now apply Z.eqb_neq).
    replace (c >? m) with true by (symmetry; now apply Z.gtb_lt).
    cbn [negb andb].
    destruct (scaling_factor_exact c m Hne Hc Hb) as (x & Hx & Hint).
    exists x. split; [|exact Hint].
    destruct (true_div c m) as [q|e]; [|discriminate Hx].
    cbn [rbind] in *.
    destruct (math_ceil q) as [k|e]; [|discriminate Hx].
    cbn [rbind] in *. now rewrite Hx.
Qed.

Lemma scale_rope_absent (c : Z) (config : Config) :
  max_position_embeddings config = None -> scale_rope c config = Ok config.
Proof. intros H. unfold scale_rope. now rewrite H. Qed.

Lemma model_max_length_present (c m : Z) :
  model_max_length_arg c (Some m) = Ok (Z.max c m).
Proof.
  unfold model_max_length_arg. f_equal.
  destruct (c >? m) eqn:E.
  - apply Z.gtb_lt in E. lia.
  - rewrite Z.gtb_ltb in E. apply Z.ltb_ge in E. lia.
Qed.

Ltac run_main :=
  rewrite main_cases;
  repeat match goal with
         | H : ?x = _ |- context [match ?x with _ => _ end] => rewrite H
         end.

(** C4, as amended: for a configuration whose max_position_embeddings is a
    non-zero [m] and a context size [c]: if [c <= m] the configuration goes
    to the model loader unchanged; if [c > m], with both below 2^53 in
    magnitude, its rope_scaling is the linear scaling whose factor is the
    float equal to the ceiling of [c / m]. *)
Theorem rope_scaling_factor (config : Config) (m : Z) :
  AutoConfig_from_pretrained host base cache = Ok config ->
  max_position_embeddings config = Some m ->
  m <> 0 ->
  let log := snd (run (main host args)) in
  (context_size args <= m -> loaded_config log = Some config) /\
  (m < context_size args ->
   Z.abs (context_size args) < 2 ^ 53 -> Z.abs m < 2 ^ 53 ->
   exists scaled x,
     loaded_config log = Some scaled /\
     rope_scaling scaled =
       Some [("type", VStr "linear"); ("factor", VFloat x)] /\
     is_integer x (ceil_div (context_size args) m) /\
     max_position_embeddings scaled = max_position_embeddings config).
Proof.
  intros Hcfg Hm Hne log. unfold log.
  destruct (scale_rope_present (context_size args) m config Hm)
    as [Hsame Hscaled].
  split.
  - intros Hle. specialize (Hsame (or_introl Hle)).
    run_main. cbv zeta.
    destruct (AutoModelForCausalLM_from_pretrained host base config cache)
      as [model|e]; [rewrite Hm, model_max_length_present|];
      [destruct (AutoTokenizer_from_pretrained host base cache _);
       [destruct (_ && _)|]|];
      cbn [snd]; rewrite <- ?app_assoc, loaded_config_prologue;
      reflexivity.
  - intros Hlt Hc Hb.
    destruct (Hscaled Hlt Hne Hc Hb) as (x & Hx & Hint).
    eexists _, x. split; [|split; [|split; [exact Hint|]]].
    + run_main. cbv zeta.
      destruct (AutoModelForCausalLM_from_pretrained host base _ cache)
        as [model|e]; [rewrite Hm, model_max_length_present|];
        [destruct (AutoTokenizer_from_pretrained host base cache _);
         [destruct (_ && _)|]|];
        cbn [snd]; rewrite <- ?app_assoc, loaded_config_prologue;
        reflexivity.
    + reflexivity.
    + reflexivity.
Qed.

(** C10: when the configuration has max_position_embeddings [m], any
    tokenizer [main] builds gets model_max_length [max c m], and [main]
    does build it when the float step passes and the model loads.  When
    the attribute is absent, the RoPE-scaling step passes the configuration
    on unchanged, but the comparison for model_max_length raises: [main]
    fails, with [TypeError] once the model has loaded, and builds no
    tokenizer. *)
Theorem tokenizer_length_needs_context (config : Config) :
  AutoConfig_from_pretrained host base cache = Ok config ->
  let outcome := run (main host args) in
  (forall m,
     max_position_embeddings config = Some m ->
     (forall n, tokenizer_max_length (snd outcome) = Some n ->
                n = (if context_size args >? m then context_size args else m)
                /\ n = Z.max (context_size args) m) /\
     (Z.abs (context_size args) < 2 ^ 53 -> Z.abs m < 2 ^ 53 ->
      (forall c, exists model,
         AutoModelForCausalLM_from_pretrained host base c cache = Ok model) ->
      tokenizer_max_length (snd outcome) =
        Some (Z.max (context_size args) m))) /\
  (max_position_embeddings config = None ->
   loaded_config (snd outcome) = Some config /\
   tokenizer_max_length (snd outcome) = None /\
   (exists e, fst outcome = Raise e) /\
   (forall model,
      AutoModelForCausalLM_from_pretrained host base config cache = Ok model ->
      fst outcome = Raise TypeError)).
Proof.
  intros Hcfg outcome. unfold outcome. split.
  - intros m Hm. split.
    + intros n. run_main.
      destruct (scale_rope (context_size args) config) as [scaled|e];
        [|cbn [snd]; rewrite tokenizer_max_length_only_prologue;
          discriminate].
      cbv zeta.
      destruct (AutoModelForCausalLM_from_pretrained host base scaled cache)
        as [model|e]; [rewrite Hm, model_max_length_present|];
        [destruct (AutoTokenizer_from_pretrained host base cache _);
         [destruct (_ && _)|]|];
        cbn [snd]; rewrite <- ?app_assoc, tokenizer_max_length_prologue;
        cbn [app tokenizer_max_length]; try discriminate.
      all: intros H; injection H as <-; split; [|reflexivity].
      all: pose proof (model_max_length_present (context_size args) m) as E.
      all: unfold model_max_length_arg in E; now injection E.
    + intros Hc Hb Hload.
      assert (Hs : exists scaled,
                 scale_rope (context_size args) config = Ok scaled).
      { destruct (scale_rope_present (context_size args) m config Hm)
          as [Hsame Hscaled].
        destruct (Z.eq_dec m 0) as [M0|M0];
          [eexists; apply Hsame; now right|].
        destruct (Z.le_gt_cases (context_size args) m) as [L|G];
          [eexists; apply Hsame; now left|].
        destruct (Hscaled G M0 Hc Hb) as (x & Hx & _). eexists; exact Hx. }
      destruct Hs as [scaled Hs]. destruct (Hload scaled) as [model Hmodel].
      run_main. cbv zeta. rewrite Hm, model_max_length_present.
      destruct (AutoTokenizer_from_pretrained host base cache _);
        [destruct (_ && _)|];
        cbn [snd]; rewrite <- ?app_assoc, tokenizer_max_length_prologue;
        reflexivity.
  - intros Hnone.
    pose proof (scale_rope_absent (context_size args) config Hnone) as Hs.
    run_main. cbv zeta. rewrite Hnone. cbn [model_max_length_arg].
    destruct (AutoModelForCausalLM_from_pretrained host base config cache)
      as [model|e]; cbn [fst snd];
      rewrite <- ?app_assoc, loaded_config_prologue,
        tokenizer_max_length_prologue;
      (split; [reflexivity|]); (split; [reflexivity|]);
      (split; [now eexists|]); intros model' H; congruence.
Qed.

End Main.

(** *** The claims on the sample surroundings *)

Import Samples.

Lemma notes_accepted : ends_with ".txt" (name notes).
Proof. now exists "notes". Qed.

Lemma notes_readable (orig : option Z) :
  open_text (sample_host orig) (name notes) = Ok notes_lines.
Proof. reflexivity. Qed.

(** On the sample host: 32769 tokens are refused without generation, 32768
    tokens go on to generation. *)
Lemma token_limit_refusal_witness :
  ends_with ".txt" (name notes) /\
  open_text (sample_host (Some 4096)) (name notes) = Ok notes_lines /\
  fst (run (sample_response (fixed_tokenizer 32769) silent_model
              (Some notes) question)) = Ok (too_long_message 32769) /\
  ~ calls_generate
      (snd (run (sample_response (fixed_tokenizer 32769) silent_model
                   (Some notes) question))) /\
  calls_generate
    (snd (run (sample_response (fixed_tokenizer 32768) silent_model
                 (Some notes) question))).
Proof.
  split; [exact notes_accepted|]. split; [reflexivity|].
  pose proof (token_limit_refusal (sample_host (Some 4096)) silent_model
                (fixed_tokenizer 32769) (temperature default_args)
                (top_p default_args) (max_gen_len default_args) true
                notes question notes_lines notes_accepted
                (notes_readable _)) as [Hover _].
  pose proof (token_limit_refusal (sample_host (Some 4096)) silent_model
                (fixed_tokenizer 32768) (temperature default_args)
                (top_p default_args) (max_gen_len default_args) true
                notes question notes_lines notes_accepted
                (notes_readable _)) as [_ Hedge].
  cbv zeta in Hover, Hedge.
  destruct Hover as [Hrun Hquiet]; [vm_compute; reflexivity|].
  specialize (Hedge ltac:(vm_compute; reflexivity)).
  split; [|split].
  - unfold sample_response. rewrite Hrun. vm_compute. reflexivity.
  - exact Hquiet.
  - eexists _, _. exact Hedge.
Defined.

Lemma pdf_not_accepted :
  ~ (ends_with ".txt" "paper.pdf" \/ "paper.pdf" = "txt").
Proof.
  intros H.
  apply (accepted_extension {| name := "paper.pdf" |}) in H.
  discriminate H.
Qed.

(** On the sample host: "paper.pdf" is rejected before any call, "notes.txt"
    is opened. *)
Lemma extension_rejection_witness :
  ~ (ends_with ".txt" "paper.pdf" \/ "paper.pdf" = "txt") /\
  run (sample_response char_tokenizer (echo_model " Done. ")
         (Some {| name := "paper.pdf" |}) question) = (Ok only_txt, []) /\
  exists r log,
    run (sample_response char_tokenizer (echo_model " Done. ")
           (Some notes) question) = (r, EvOpen "notes.txt" :: log).
Proof.
  split; [exact pdf_not_accepted|]. split.
  - apply (proj1 (extension_rejection (sample_host (Some 4096))
                    (echo_model " Done. ") char_tokenizer
                    (temperature default_args) (top_p default_args)
                    (max_gen_len default_args) true
                    {| name := "paper.pdf" |} question)).
    exact pdf_not_accepted.
  - apply (proj2 (extension_rejection (sample_host (Some 4096))
                    (echo_model " Done. ") char_tokenizer
                    (temperature default_args) (top_p default_args)
                    (max_gen_len default_args) true notes question)).
    left. exact notes_accepted.
Defined.

(** C2, as stated, fails: the name "txt" does not end in ".txt", yet the
    upload is not rejected; the file is opened and answered. *)
Lemma bare_txt_name_is_accepted :
  ~ ends_with ".txt" "txt" /\
  fst (run (sample_response char_tokenizer (echo_model " Done. ")
              (Some {| name := "txt" |}) question)) = Ok "Done." /\
  fst (run (sample_response char_tokenizer (echo_model " Done. ")
              (Some {| name := "txt" |}) question)) <> Ok only_txt /\
  In (EvOpen "txt")
    (snd (run (sample_response char_tokenizer (echo_model " Done. ")
                 (Some {| name := "txt" |}) question))).
Proof.
  split.
  - intros [pre H]. apply (f_equal String.length) in H.
    rewrite length_append in H. cbn in H. lia.
  - split; [vm_compute; reflexivity|].
    split; [vm_compute; discriminate | vm_compute; auto].
Qed.

(** On the sample host: a prompt of 40000 tokens is tokenized in full and
    refused. *)
Lemma overflow_is_refused_witness :
  ends_with ".txt" (name notes) /\
  open_text (sample_host (Some 4096)) (name notes) = Ok notes_lines /\
  32768 < Z.of_nat (List.length (encode (fixed_tokenizer 40000)
                                   (instruction_prompt notes_text question))) /\
  let '(r, log) := run (sample_response (fixed_tokenizer 40000) silent_model
                          (Some notes) question) in
  r = Ok (too_long_message 40000) /\
  (forall p, tokenizes log p -> p = instruction_prompt notes_text question) /\
  ~ calls_generate log.
Proof.
  split; [exact notes_accepted|]. split; [reflexivity|].
  split; [vm_compute; reflexivity|].
  exact (overflow_is_refused (sample_host (Some 4096)) silent_model
           (fixed_tokenizer 40000) (temperature default_args)
           (top_p default_args) (max_gen_len default_args) true
           notes question notes_lines notes_accepted (notes_readable _)
           ltac:(vm_compute; reflexivity)).
Defined.

(** C3, as stated, fails: on a prompt of 32769 tokens the generation
    routine is not called on a truncated prompt, nor at all; the request is
    refused. *)
Lemma overlong_prompt_is_not_generated :
  32768 < Z.of_nat (List.length (encode (fixed_tokenizer 32769)
                                   (instruction_prompt notes_text question))) /\
  fst (run (sample_response (fixed_tokenizer 32769) silent_model
              (Some notes) question)) = Ok (too_long_message 32769) /\
  ~ calls_generate
      (snd (run (sample_response (fixed_tokenizer 32769) silent_model
                   (Some notes) question))).
Proof.
  split; [vm_compute; reflexivity|]. split; [vm_compute; reflexivity|].
  intros (ids & kw & H). vm_compute in H.
  destruct H as [H | [H | []]]; discriminate H.
Qed.

(** On the sample host: context size 32769 over an original 4096 gives the
    factor 9. *)
Lemma rope_scaling_factor_witness :
  AutoConfig_from_pretrained (sample_host (Some 4096))
    (base_model (with_context_size 32769))
    (cache_dir (with_context_size 32769)) =
    Ok {| max_position_embeddings := Some 4096; rope_scaling := None |} /\
  4096 <> 0 /\ 4096 < 32769 /\ Z.abs 32769 < 2 ^ 53 /\ Z.abs 4096 < 2 ^ 53 /\
  ceil_div 32769 4096 = 9 /\
  exists scaled x,
    loaded_config
      (snd (run (main (sample_host (Some 4096)) (with_context_size 32769)))) =
      Some scaled /\
    rope_scaling scaled =
      Some [("type", VStr "linear"); ("factor", VFloat x)] /\
    is_integer x 9.
Proof.
  split; [reflexivity|]. split; [discriminate|].
  split; [reflexivity|]. split; [reflexivity|]. split; [reflexivity|].
  split; [reflexivity|].
  destruct (proj2 (rope_scaling_factor (sample_host (Some 4096))
                     (with_context_size 32769)
                     {| max_position_embeddings := Some 4096;
                        rope_scaling := None |} 4096
                     eq_refl eq_refl ltac:(discriminate))
              ltac:(reflexivity) ltac:(reflexivity) ltac:(reflexivity))
    as (scaled & x & Hlog & Hrope & Hint & _).
  exists scaled, x. auto.
Defined.

(** C4, as stated, fails beyond the integers a float holds: for
    max_position_embeddings 1 and context size 2^53 + 1 the factor [main]
    sets is the float 2^53, not the ceiling 2^53 + 1 of the quotient. *)
Lemma rope_factor_rounds_above_2_53 :
  exists scaled x,
    1 <> 0 /\ 1 < context_size (with_context_size (2 ^ 53 + 1)) /\
    loaded_config
      (snd (run (main (sample_host (Some 1))
                   (with_context_size (2 ^ 53 + 1))))) = Some scaled /\
    rope_scaling scaled =
      Some [("type", VStr "linear"); ("factor", VFloat x)] /\
    ceil_div (2 ^ 53 + 1) 1 = 2 ^ 53 + 1 /\
    is_integer x (2 ^ 53) /\
    ~ is_integer x (ceil_div (2 ^ 53 + 1) 1).
Proof.
  eexists _, _.
  split; [discriminate|]. split; [reflexivity|].
  split; [vm_compute; reflexivity|]. split; [reflexivity|].
  split; [reflexivity|]. split; [reflexivity|].
  vm_compute. discriminate.
Qed.

Lemma done_has_no_prompt :
  ~ occurs (instruction_prompt notes_text question) " Done. ".
Proof.
  intros H. apply occurs_length in H. vm_compute in H. lia.
Qed.

(** On the sample host: the echoing model's answer comes back stripped. *)
Lemma answer_is_stripped_continuation_witness :
  ends_with ".txt" (name notes) /\
  open_text (sample_host (Some 4096)) (name notes) = Ok notes_lines /\
  ~ occurs (instruction_prompt notes_text question) " Done. " /\
  fst (run (sample_response char_tokenizer (echo_model " Done. ")
              (Some notes) question)) = Ok (strip " Done. ") /\
  strip " Done. " = "Done.".
Proof.
  split; [exact notes_accepted|]. split; [reflexivity|].
  split; [exact done_has_no_prompt|]. split; [|reflexivity].
  apply (answer_is_stripped_continuation (sample_host (Some 4096))
           (echo_model " Done. ") char_tokenizer (temperature default_args)
           (top_p default_args) (max_gen_len default_args) true
           notes question notes_lines
           (encode char_tokenizer
              (instruction_prompt notes_text question ++ " Done. "))
           " Done. " notes_accepted (notes_readable _)).
  - vm_compute. discriminate.
  - vm_compute. reflexivity.
  - vm_compute. reflexivity.
  - exact done_has_no_prompt.
Defined.

(** C5, as stated, fails: for a readable .txt upload within the token
    limit whose decoded output is the prompt, an answer, the prompt again
    and more text, [response] returns the first answer only, not the
    decoded output with the prompt prefix removed. *)
Lemma repeated_prompt_cuts_answer :
  ends_with ".txt" (name notes) /\
  open_text (sample_host (Some 4096)) (name notes) = Ok notes_lines /\
  Z.of_nat (List.length (encode char_tokenizer notes_prompt)) <= 32768 /\
  (exists output,
     generate (twice_model " A " " B") (encode char_tokenizer notes_prompt)
       {| max_new_tokens := max_gen_len default_args;
          kw_temperature := temperature default_args;
          kw_top_p := top_p default_args;
          kw_use_cache := true |} = Ok output /\
     decode char_tokenizer output = repeated_output) /\
  fst (run (sample_response char_tokenizer (twice_model " A " " B")
              (Some notes) question)) = Ok "A" /\
  strip (removeprefix notes_prompt repeated_output) =
    "A " ++ notes_prompt ++ " B" /\
  Ok "A" <> Ok (strip (removeprefix notes_prompt repeated_output)).
Proof.
  split; [exact notes_accepted|]. split; [reflexivity|].
  split; [vm_compute; discriminate|].
  split; [eexists; split; vm_compute; reflexivity|].
  split; [vm_compute; reflexivity|].
  split; [vm_compute; reflexivity|].
  vm_compute. discriminate.
Qed.

(** On the sample host: a failure of generation and a failure of [open] are
    what [response] raises. *)
Lemma two_failure_messages_witness :
  In (EvGenerate (encode char_tokenizer
                    (instruction_prompt notes_text question))
        {| max_new_tokens := max_gen_len default_args;
           kw_temperature := temperature default_args;
           kw_top_p := top_p default_args;
           kw_use_cache := true |})
    (snd (run (sample_response char_tokenizer failing_model
                 (Some notes) question))) /\
  fst (run (sample_response char_tokenizer failing_model
              (Some notes) question)) =
    Raise (RuntimeError "CUDA out of memory") /\
  fst (run (sample_response char_tokenizer (echo_model " Done. ")
              (Some {| name := "missing.txt" |}) question)) = Raise OSError.
Proof.
  assert (Hin : In (EvGenerate (encode char_tokenizer
                                  (instruction_prompt notes_text question))
                      {| max_new_tokens := max_gen_len default_args;
                         kw_temperature := temperature default_args;
                         kw_top_p := top_p default_args;
                         kw_use_cache := true |})
                  (snd (run (sample_response char_tokenizer failing_model
                               (Some notes) question)))).
  { vm_compute. auto. }
  split; [exact Hin|]. split.
  - apply (proj1 (proj2 (proj2 (proj2
             (two_failure_messages (sample_host (Some 4096)) failing_model
                char_tokenizer (temperature default_args)
                (top_p default_args) (max_gen_len default_args) true
                (Some notes) question))))
             _ _ Hin eq_refl).
  - apply (proj1 (proj2 (proj2
             (two_failure_messages (sample_host (Some 4096))
                (echo_model " Done. ") char_tokenizer
                (temperature default_args) (top_p default_args)
                (max_gen_len default_args) true
                (Some {| name := "missing.txt" |}) question)))
             {| name := "missing.txt" |} OSError eq_refl).
    + left. now exists "missing".
    + reflexivity.
Defined.

(** On the sample host: the prompt tokenized for [notes] and [question]. *)
Lemma prompt_is_template_instance_witness :
  ends_with ".txt" (name notes) /\
  open_text (sample_host (Some 4096)) (name notes) = Ok notes_lines /\
  tokenizes
    (snd (run (sample_response char_tokenizer (echo_model " Done. ")
                 (Some notes) question)))
    (prompt_head ++ (notes_text ++ LF ++ question) ++ prompt_tail).
Proof.
  split; [exact notes_accepted|]. split; [reflexivity|].
  apply (proj2 (prompt_is_template_instance (sample_host (Some 4096))
                  (echo_model " Done. ") char_tokenizer
                  (temperature default_args) (top_p default_args)
                  (max_gen_len default_args) true notes question
                  notes_lines notes_accepted (notes_readable _))).
  reflexivity.
Defined.

(** On the sample host: a model that returns nothing makes [response] fail
    with [IndexError]; the echoing model does not. *)
Lemma strip_step_needs_prompt_witness :
  ends_with ".txt" (name notes) /\
  open_text (sample_host (Some 4096)) (name notes) = Ok notes_lines /\
  ~ occurs (instruction_prompt notes_text question)
      (decode char_tokenizer []) /\
  fst (run (sample_response char_tokenizer silent_model
              (Some notes) question)) = Raise IndexError /\
  exists s,
    fst (run (sample_response char_tokenizer (echo_model " Done. ")
                (Some notes) question)) = Ok s.
Proof.
  assert (Hno : ~ occurs (instruction_prompt notes_text question)
                    (decode char_tokenizer [])).
  { apply occurs_nil. apply instruction_prompt_not_nil. }
  split; [exact notes_accepted|]. split; [reflexivity|].
  split; [exact Hno|]. split.
  - apply (strip_step_needs_prompt (sample_host (Some 4096)) silent_model
             char_tokenizer (temperature default_args) (top_p default_args)
             (max_gen_len default_args) true notes question notes_lines []
             notes_accepted (notes_readable _)
             ltac:(vm_compute; discriminate) eq_refl).
    exact Hno.
  - apply (strip_step_needs_prompt (sample_host (Some 4096))
             (echo_model " Done. ") char_tokenizer
             (temperature default_args) (top_p default_args)
             (max_gen_len default_args) true notes question notes_lines
             (encode char_tokenizer
                (instruction_prompt notes_text question ++ " Done. "))
             notes_accepted (notes_readable _)
             ltac:(vm_compute; discriminate)
             ltac:(vm_compute; reflexivity)).
    exists "", " Done. ". vm_compute. reflexivity.
Defined.

(** On the sample host: the tokenizer gets the larger of the two lengths;
    without max_position_embeddings [main] raises [TypeError]. *)
Lemma tokenizer_length_needs_context_witness :
  tokenizer_max_length
    (snd (run (main (sample_host (Some 4096)) (with_context_size 32768)))) =
    Some (Z.max 32768 4096) /\
  tokenizer_max_length
    (snd (run (main (sample_host (Some 4096)) default_args))) =
    Some (Z.max (-1) 4096) /\
  fst (run (main (sample_host None) default_args)) = Raise TypeError /\
  tokenizer_max_length
    (snd (run (main (sample_host None) default_args))) = None.
Proof.
  split; [|split].
  - apply (proj1 (tokenizer_length_needs_context (sample_host (Some 4096))
                    (with_context_size 32768) _ eq_refl) 4096 eq_refl).
    + reflexivity.
    + reflexivity.
    + intros c. eexists. reflexivity.
  - apply (proj1 (tokenizer_length_needs_context (sample_host (Some 4096))
                    default_args _ eq_refl) 4096 eq_refl).
    + reflexivity.
    + reflexivity.
    + intros c. eexists. reflexivity.
  - destruct (proj2 (tokenizer_length_needs_context (sample_host None)
                       default_args _ eq_refl) eq_refl)
      as (_ & Hnone & _ & Htype).
    split; [|exact Hnone].
    apply (Htype (echo_model " Done. ")). reflexivity.
Defined.

End DemoFacts.

(** ** Laws of the string operations *)

Module PyStrLaws.

Import PyStr PyStrFacts.

Lemma append_same_length (a b c d : string) :
  a ++ b = c ++ d -> String.length a = String.length c -> a = c /\ b = d.
Proof.
  revert c. induction a as [|x a IH]; intros [|y c] H L;
    try discriminate L.
  - now split.
  - cbn in H. injection H as -> H. injection L as L.
    destruct (IH c H L) as [-> ->]. now split.
Qed.

(** Of two prefixes of one text the shorter is a prefix of the longer. *)
Lemma append_shorter (a b c d : string) :
  a ++ b = c ++ d -> (String.length a <= String.length c)%nat ->
  exists k, c = a ++ k /\ b = k ++ d.
Proof.
  revert c. induction a as [|x a IH]; intros c H L.
  - exists c. now split.
  - destruct c as [|y c]; [cbn in L; lia|].
    cbn in H. injection H as -> H. cbn in L.
    destruct (IH c H ltac:(lia)) as (k & -> & ->). now exists k.
Qed.

(** The scan of [split], case by case. *)
Lemma split_go_cases (sep : string) (P : string -> string -> Prop) :
  sep <> "" ->
  (forall cur, P cur "") ->
  (forall cur rest, P "" rest -> P cur (sep ++ rest)) ->
  (forall cur c s,
     prefix sep (String c s) = false ->
     P (cur ++ String c "") s -> P cur (String c s)) ->
  forall s cur, P cur s.
Proof.
  intros Hsep Hnil Hmatch Hstep s.
  assert (H : forall n s, (String.length s <= n)%nat -> forall cur, P cur s).
  { induction n as [|n IH]; intros t L cur.
    - destruct t; [apply Hnil | cbn in L; lia].
    - destruct t as [|c t]; [apply Hnil|].
      destruct (prefix sep (String c t)) eqn:E.
      + apply prefix_iff in E as [rest E]. rewrite E.
        apply Hmatch. apply IH.
        apply (f_equal String.length) in E.
        rewrite length_append in E. cbn in E, L.
        destruct sep; [congruence | cbn in E; lia].
      + apply Hstep; [exact E|]. apply IH. cbn in L. lia. }
  intros cur. now apply (H (String.length s)).
Qed.

Lemma join_cons (sep p : string) (l : list string) :
  l <> [] -> join sep (p :: l) = p ++ sep ++ join sep l.
Proof. destruct l; [congruence | reflexivity]. Qed.

Lemma split_go_join (sep : string) :
  sep <> "" ->
  forall s cur, join sep (split_go sep O cur s) = cur ++ s.
Proof.
  intros Hsep. apply (split_go_cases sep); [exact Hsep|..].
  - intros cur. cbn. now rewrite append_nil_r.
  - intros cur rest IH. rewrite split_go_match by exact Hsep.
    rewrite join_cons by apply split_go_nonempty. now rewrite IH.
  - intros cur c s E IH. rewrite split_go_step by exact E.
    rewrite IH. now rewrite append_assoc.
Qed.

Lemma clear_of_free (sep cur s : string) :
  sep <> "" -> clear_of sep cur s -> ~ occurs sep cur.
Proof.
  intros Hsep Hc [a [b E]].
  specialize (Hc a (b ++ s)).
  rewrite E, !append_assoc in Hc. specialize (Hc eq_refl).
  rewrite !length_append in Hc.
  destruct sep; [congruence | cbn in Hc; lia].
Qed.

Lemma split_go_free (sep : string) :
  sep <> "" ->
  forall s cur,
    clear_of sep cur s ->
    forall p, In p (split_go sep O cur s) -> ~ occurs sep p.
Proof.
  intros Hsep. apply (split_go_cases sep
    (fun cur s => clear_of sep cur s ->
                  forall p, In p (split_go sep O cur s) -> ~ occurs sep p));
    [exact Hsep|..].
  - intros cur Hc p [<- | []]. now apply (clear_of_free sep cur "").
  - intros cur rest IH Hc p. rewrite split_go_match by exact Hsep.
    intros [<- | Hin].
    + now apply (clear_of_free sep cur (sep ++ rest)).
    + apply IH; [|exact Hin]. intros a b _. cbn. lia.
  - intros cur c s E IH Hc p. rewrite split_go_step by exact E.
    apply IH. intros a b Hab. rewrite append_assoc in Hab. cbn in Hab.
    pose proof (Hc a b Hab) as L. rewrite length_append. cbn.
    destruct (Nat.eq_dec (String.length cur) (String.length a)) as [Eq|Ne];
      [|lia].
    exfalso. destruct (append_same_length _ _ _ _ Hab Eq) as [_ Hs].
    assert (Hp : prefix sep (String c s) = true)
      by (apply prefix_iff; now exists b).
    congruence.
Qed.

Lemma first_at_free (sep pre : string) :
  sep <> "" -> first_at sep pre -> ~ occurs sep pre.
Proof.
  intros Hsep Hf [a [b E]].
  specialize (Hf a (b ++ sep)). rewrite E, !append_assoc in Hf.
  specialize (Hf eq_refl). destruct b; [|discriminate Hf].
  cbn in Hf. congruence.
Qed.

Lemma first_at_tail (sep : string) (c : ascii) (pre : string) :
  first_at sep (String c pre) -> first_at sep pre.
Proof.
  intros Hf a b E. apply (Hf (String c a) b). cbn. now rewrite E.
Qed.

(** Up to the first place where the separator starts there is one piece. *)
Lemma split_go_first (sep pre rest : string) :
  sep <> "" -> first_at sep pre ->
  forall cur,
    split_go sep O cur (pre ++ sep ++ rest) =
    (cur ++ pre) :: split_go sep O "" rest.
Proof.
  intros Hsep. induction pre as [|c pre IH]; intros Hf cur.
  - cbn [append]. rewrite split_go_match by exact Hsep.
    now rewrite append_nil_r.
  - assert (Hp : prefix sep (String c (pre ++ sep ++ rest)) = false).
    { destruct (prefix sep (String c (pre ++ sep ++ rest))) eqn:E;
        [|reflexivity].
      exfalso. apply prefix_iff in E as [k E].
      change (String c (pre ++ sep ++ rest))
        with (String c pre ++ sep ++ rest) in E.
      rewrite <- append_assoc in E. symmetry in E.
      destruct (append_shorter sep k (String c pre ++ sep) rest E)
        as (j & Hj & _).
      { rewrite length_append. lia. }
      pose proof (Hf "" j Hj) as ->.
      apply (f_equal String.length) in Hj.
      rewrite !length_append in Hj. cbn in Hj. lia. }
    change (String c pre ++ sep ++ rest)
      with (String c (pre ++ sep ++ rest)).
    rewrite split_go_step by exact Hp.
    rewrite IH by (eapply first_at_tail; exact Hf).
    now rewrite append_assoc.
Qed.

Lemma lstrip_decompose (s : string) :
  exists l, s = l ++ lstrip s /\ all_space l = true.
Proof.
  induction s as [|c s (l & E & Hl)].
  - now exists "".
  - cbn [lstrip]. destruct (is_space c) eqn:Hc.
    + exists (String c l). cbn. rewrite Hc, Hl. split; [now f_equal|].
      reflexivity.
    + now exists "".
Qed.

Lemma rstrip_decompose (s : string) :
  exists r, s = rstrip s ++ r /\ all_space r = true.
Proof.
  induction s as [|c s (r & E & Hr)].
  - now exists "".
  - cbn [rstrip]. destruct (rstrip s) as [|x t] eqn:Ht.
    + destruct (is_space c) eqn:Hc.
      * exists (String c r). cbn in *. rewrite Hc, Hr. split; [now f_equal|].
        reflexivity.
      * exists r. cbn in *. split; [now f_equal | exact Hr].
    + exists r. cbn in *. split; [now f_equal | exact Hr].
Qed.

Lemma head_lstrip (s : string) (c : ascii) :
  head_char (lstrip s) = Some c -> is_space c = false.
Proof.
  induction s as [|x s IH]; [discriminate|].
  cbn [lstrip]. destruct (is_space x) eqn:Hx; [exact IH|].
  cbn. intros H. now injection H as <-.
Qed.

Lemma head_rstrip (s : string) (c : ascii) :
  head_char (rstrip s) = Some c -> head_char s = Some c.
Proof.
  destruct s as [|x s]; [discriminate|].
  cbn [rstrip]. destruct (rstrip s); [destruct (is_space x)|];
    cbn; congruence.
Qed.

Lemma last_rstrip (s : string) (c : ascii) :
  last_char (rstrip s) = Some c -> is_space c = false.
Proof.
  induction s as [|x s IH]; [discriminate|].
  cbn [rstrip]. destruct (rstrip s) as [|y t] eqn:Ht.
  - destruct (is_space x) eqn:Hx; [discriminate|].
    cbn. intros H. now injection H as <-.
  - exact IH.
Qed.

Lemma rstrip_idem (s : string) : rstrip (rstrip s) = rstrip s.
Proof.
  induction s as [|x s IH]; [reflexivity|].
  cbn [rstrip]. destruct (rstrip s) as [|y t] eqn:Ht.
  - destruct (is_space x) eqn:Hx; [reflexivity|].
    cbn. now rewrite Hx.
  - cbn [rstrip] in *. now rewrite IH.
Qed.

Lemma lstrip_fixed (s : string) :
  (forall c, head_char s = Some c -> is_space c = false) -> lstrip s = s.
Proof.
  destruct s as [|x s]; [reflexivity|].
  intros H. cbn. now rewrite (H x eq_refl).
Qed.

Lemma strip_idem (s : string) : strip (strip s) = strip s.
Proof.
  unfold strip. rewrite lstrip_fixed.
  - apply rstrip_idem.
  - intros c H. apply head_rstrip in H. now apply head_lstrip in H.
Qed.

Lemma occurs_strip (sub s : string) : occurs sub (strip s) -> occurs sub s.
Proof.
  intros [a [b E]]. unfold strip in E.
  destruct (lstrip_decompose s) as (l & Hs & _).
  destruct (rstrip_decompose (lstrip s)) as (r & Hr & _).
  exists (l ++ a), (b ++ r).
  rewrite Hs, Hr, E. now rewrite !append_assoc.
Qed.

Lemma readlines_go_concat (s : string) :
  forall cur acc,
    fold_left append (readlines_go cur s) acc = acc ++ cur ++ s.
Proof.
  induction s as [|c s IH]; intros cur acc.
  - cbn [readlines_go]. destruct cur; cbn; now rewrite ?append_nil_r.
  - cbn [readlines_go]. destruct (c =? ascii_of_nat 10)%char.
    + cbn [fold_left]. rewrite IH. cbn [append].
      now rewrite !append_assoc.
    + rewrite IH. now rewrite !append_assoc.
Qed.

Lemma first_at_nil (sep : string) : first_at sep "".
Proof.
  intros a b E. apply (f_equal String.length) in E.
  rewrite !length_append in E. cbn in E.
  destruct b; [reflexivity | cbn in E; lia].
Qed.

(** A character that is not the first of the separator keeps the first
    place of the separator behind it. *)
Lemma first_at_cons (sep : string) (c x : ascii) (pre : string) :
  head_char sep = Some c -> x <> c -> first_at sep pre ->
  first_at sep (String x pre).
Proof.
  intros Hc Hx Hf a b E. destruct sep as [|y sep]; [discriminate Hc|].
  injection Hc as ->. destruct a as [|z a].
  - cbn in E. injection E as E _. contradiction.
  - cbn in E. injection E as _ E. now apply (Hf a b).
Qed.

(** X1: [split] loses nothing: the pieces joined with the separator are the
    text again, there is always at least one piece, and the separator
    occurs in no piece. *)
Theorem split_join_round_trip (s sep : string) (pieces : list string) :
  split s sep = Ok pieces ->
  join sep pieces = s /\
  pieces <> [] /\
  forall p, In p pieces -> ~ occurs sep p.
Proof.
  intros H.
  assert (Hne : sep <> "") by (intros ->; discriminate H).
  assert (E : pieces = split_go sep O "" s).
  { unfold split in H. destruct sep; [congruence | now injection H]. }
  subst pieces.
  split; [now rewrite split_go_join|].
  split; [apply split_go_nonempty|].
  apply split_go_free; [exact Hne|]. intros a b _. cbn. lia.
Qed.

(** X2: [split] without a separator to split at: an empty separator raises
    [ValueError], and a text in which the separator does not occur comes
    back as the only piece. *)
Theorem split_edge_cases (s sep : string) :
  (sep = "" -> split s sep = Raise ValueError) /\
  (sep <> "" -> ~ occurs sep s -> split s sep = Ok [s]) /\
  (sep <> "" -> split "" sep = Ok [""]).
Proof.
  split; [intros ->; reflexivity|]. split.
  - intros Hsep Hno. unfold split. destruct sep; [congruence|].
    now rewrite split_go_absent.
  - intros Hsep. unfold split. destruct sep; [congruence | reflexivity].
Qed.

(** X3: [strip] removes whitespace at the two ends and nothing else: the
    text is a run of whitespace, the stripped text and a run of whitespace;
    the stripped text neither starts nor ends with whitespace; stripping
    twice changes nothing. *)
Theorem strip_removes_outer_whitespace (s : string) :
  (exists l r,
     s = l ++ strip s ++ r /\ all_space l = true /\ all_space r = true) /\
  (forall c, head_char (strip s) = Some c -> is_space c = false) /\
  (forall c, last_char (strip s) = Some c -> is_space c = false) /\
  strip (strip s) = strip s.
Proof.
  split; [|split; [|split]].
  - destruct (lstrip_decompose s) as (l & Hs & Hl).
    destruct (rstrip_decompose (lstrip s)) as (r & Hr & Hrs).
    exists l, r. unfold strip. now rewrite <- Hr.
  - intros c H. apply head_rstrip in H. now apply head_lstrip in H.
  - intros c. apply last_rstrip.
  - apply strip_idem.
Qed.

End PyStrLaws.

(** ** Laws of the script *)

Module DemoLaws.

Import PyStr PyFloat Demo PyStrFacts PyFloatFacts DemoFacts PyStrLaws.

Ltac log_has :=
  cbn [In snd]; repeat first [left; reflexivity | right].

Ltac log_lacks H :=
  cbn [In snd] in H;
  repeat match type of H with
         | _ \/ _ => destruct H as [H | H]; [try discriminate H|]
         | False => contradiction
         end.

Section ResponseLaws.

Variable host : Host.
Variable model : Model.
Variable tokenizer : Tokenizer.
Variables temperature top_p : float.
Variable max_gen_len : Z.
Variable use_cache : bool.

Local Abbreviation response :=
  (build_generator host model tokenizer temperature top_p max_gen_len
     use_cache).

Local Abbreviation kwargs :=
  {| max_new_tokens := max_gen_len;
     kw_temperature := temperature;
     kw_top_p := top_p;
     kw_use_cache := use_cache |}.

Local Abbreviation cases :=
  (response_cases host model tokenizer temperature top_p max_gen_len
     use_cache).

Local Abbreviation accepted :=
  (response_accepted host model tokenizer temperature top_p max_gen_len
     use_cache).

Lemma item_second_shape (l : list string) (x : string) :
  item l 1 = Ok x -> exists p ps, l = p :: x :: ps.
Proof.
  destruct l as [|p [|y ps]]; try discriminate.
  cbn. intros H. injection H as <-. now exists p, ps.
Qed.

Lemma join_tail (sep x : string) (ps : list string) :
  exists rest, join sep (x :: ps) = x ++ rest.
Proof.
  destruct ps as [|y ps].
  - exists "". cbn. now rewrite append_nil_r.
  - now exists (sep ++ join sep (y :: ps)).
Qed.

(** What element 1 of a split is: the text behind the first separator, up
    to the next one. *)
Lemma second_piece_shape (sep s x : string) :
  sep <> "" ->
  item (split_go sep O "" s) 1 = Ok x ->
  exists pre rest,
    s = pre ++ sep ++ x ++ rest /\
    ~ occurs sep pre /\ ~ occurs sep x.
Proof.
  intros Hsep H. apply item_second_shape in H as (p & ps & E).
  pose proof (split_go_join sep Hsep s "") as J. rewrite E in J.
  rewrite join_cons in J by discriminate.
  destruct (join_tail sep x ps) as [rest R]. rewrite R in J.
  assert (F : forall q, In q (split_go sep O "" s) -> ~ occurs sep q).
  { apply split_go_free; [exact Hsep|]. intros a b _. cbn. lia. }
  rewrite E in F.
  exists p, rest. split; [symmetry; exact J|].
  split; apply F; cbn; auto.
Qed.

(** The text between the first two places of the separator is element 1. *)
Lemma second_piece_between (sep pre mid rest : string) :
  sep <> "" -> first_at sep pre ->
  (rest = "" /\ ~ occurs sep mid) \/
  (exists r, rest = sep ++ r /\ first_at sep mid) ->
  item (split_go sep O "" (pre ++ sep ++ mid ++ rest)) 1 = Ok mid.
Proof.
  intros Hsep Hpre Hrest.
  rewrite split_go_first by assumption.
  destruct Hrest as [[-> Hno] | (r & -> & Hmid)].
  - rewrite append_nil_r. now rewrite split_go_absent.
  - now rewrite split_go_first by assumption.
Qed.

(** X4: for a readable .txt upload within the token limit, when the prompt
    first occurs in the decoded output behind a text [pre] and next behind
    [mid] (or nowhere else), [response] returns [mid] stripped: the answer
    is what stands between the first two occurrences of the prompt,
    whatever precedes the first and follows the second. *)
Theorem answer_between_occurrences (f : File) (question : string)
  (lines : list string) (output : list Z) (pre mid rest : string) :
  ends_with ".txt" (name f) ->
  open_text host (name f) = Ok lines ->
  let prompt := instruction_prompt (fold_left append lines "") question in
  let inputs := encode tokenizer prompt in
  Z.of_nat (List.length inputs) <= 32768 ->
  generate model inputs kwargs = Ok output ->
  decode tokenizer output = pre ++ prompt ++ mid ++ rest ->
  first_at prompt pre ->
  (rest = "" /\ ~ occurs prompt mid) \/
  (exists r, rest = prompt ++ r /\ first_at prompt mid) ->
  fst (run (response (Some f) question)) = Ok (strip mid).
Proof.
  intros Hext Hopen prompt inputs Hn Hgen Hdec Hpre Hrest.
  rewrite (accepted f question lines (or_introl Hext) Hopen).
  cbv zeta. fold prompt. fold inputs.
  rewrite (gtb_false _ _ Hn), Hgen, Hdec.
  rewrite second_piece_between;
    [reflexivity | apply instruction_prompt_not_nil | assumption..].
Qed.

(** The shape of a run that returned a generation result. *)
Lemma generation_result_shape (material : option File) (question s : string) :
  fst (run (response material question)) = Ok s ->
  calls_generate (snd (run (response material question))) ->
  exists prompt output piece,
    Z.of_nat (List.length (encode tokenizer prompt)) <= 32768 /\
    generate model (encode tokenizer prompt) kwargs = Ok output /\
    item (split_go prompt O "" (decode tokenizer output)) 1 = Ok piece /\
    s = strip piece /\
    prompt <> "" /\
    exists path,
      snd (run (response material question)) =
      [EvOpen path; EvTokenize prompt; EvEmptyCache;
       EvGenerate (encode tokenizer prompt) kwargs; EvDecode output;
       EvPrint ["out"; s]].
Proof.
  intros Hs Hgen.
  destruct material as [f|];
    [|destruct Hgen as (i & k & H); destruct H].
  destruct (cases f question) as (ext & _ & Hrun).
  rewrite Hrun in *. clear Hrun.
  destruct (negb (ext =? "txt")%string);
    [destruct Hgen as (i & k & H); destruct H|].
  destruct (open_text host (name f)) as [lines|e]; [|discriminate Hs].
  cbv zeta in *.
  set (prompt := instruction_prompt (fold_left append lines "") question)
    in *.
  destruct (Z.of_nat (List.length (encode tokenizer prompt)) >? 32768)
    eqn:Hn.
  { destruct Hgen as (i & k & H). log_lacks H. }
  destruct (generate model (encode tokenizer prompt) kwargs)
    as [output|e] eqn:Hg; [|discriminate Hs].
  destruct (item _ 1) as [piece|e] eqn:Hitem; [|discriminate Hs].
  injection Hs as <-.
  exists prompt, output, piece.
  split; [rewrite Z.gtb_ltb in Hn; now apply Z.ltb_ge in Hn|].
  split; [exact Hg|]. split; [exact Hitem|]. split; [reflexivity|].
  split; [apply instruction_prompt_not_nil|]. now exists (name f).
Qed.

(** X5: an answer [response] returns after generation never contains the
    prompt and has no whitespace at its ends; it is the stripped text that
    stands in the decoded output behind an occurrence of the prompt. *)
Theorem answer_is_free_of_prompt (material : option File)
  (question s : string) :
  fst (run (response material question)) = Ok s ->
  calls_generate (snd (run (response material question))) ->
  exists prompt output pre mid rest,
    tokenizes (snd (run (response material question))) prompt /\
    In (EvDecode output) (snd (run (response material question))) /\
    decode tokenizer output = pre ++ prompt ++ mid ++ rest /\
    s = strip mid /\
    ~ occurs prompt pre /\ ~ occurs prompt mid /\
    ~ occurs prompt s /\ strip s = s.
Proof.
  intros Hs Hgen.
  destruct (generation_result_shape material question s Hs Hgen)
    as (prompt & output & piece & _ & _ & Hitem & -> & Hp & path & Hlog).
  destruct (second_piece_shape prompt _ piece Hp Hitem)
    as (pre & rest & Hdec & Hpre & Hmid).
  exists prompt, output, pre, piece, rest. rewrite Hlog.
  split; [unfold tokenizes; log_has|]. split; [log_has|].
  split; [exact Hdec|]. split; [reflexivity|].
  split; [exact Hpre|]. split; [exact Hmid|].
  split; [|apply strip_idem].
  intros H. apply Hmid. now apply occurs_strip.
Qed.

(** Every path of [response] with its log: the calls made, in order. *)
Lemma response_logs (material : option File) (question : string) :
  let log := snd (run (response material question)) in
  log = [] \/
  (exists path, log = [EvOpen path]) \/
  exists path prompt,
    let inputs := encode tokenizer prompt in
    (log = [EvOpen path; EvTokenize prompt] /\
     32768 < Z.of_nat (List.length inputs)) \/
    (Z.of_nat (List.length inputs) <= 32768 /\
     (log = [EvOpen path; EvTokenize prompt; EvEmptyCache;
             EvGenerate inputs kwargs] \/
      exists output,
        log = [EvOpen path; EvTokenize prompt; EvEmptyCache;
               EvGenerate inputs kwargs; EvDecode output] \/
        exists s,
          fst (run (response material question)) = Ok s /\
          log = [EvOpen path; EvTokenize prompt; EvEmptyCache;
                 EvGenerate inputs kwargs; EvDecode output;
                 EvPrint ["out"; s]])).
Proof.
  cbv zeta. destruct material as [f|]; [|now left].
  destruct (cases f question) as (ext & _ & Hrun).
  rewrite Hrun. clear Hrun.
  destruct (negb (ext =? "txt")%string); [now left|].
  destruct (open_text host (name f)) as [lines|e];
    [|right; left; now exists (name f)].
  right; right. cbv zeta.
  set (prompt := instruction_prompt (fold_left append lines "") question).
  exists (name f), prompt.
  destruct (Z.of_nat (List.length (encode tokenizer prompt)) >? 32768)
    eqn:Hn.
  { left. split; [reflexivity | now apply Z.gtb_lt]. }
  right. split; [rewrite Z.gtb_ltb in Hn; now apply Z.ltb_ge in Hn|].
  destruct (generate model (encode tokenizer prompt) kwargs) as [output|e];
    [|now left].
  right. exists output.
  destruct (item _ 1) as [piece|e]; [|now left].
  right. now exists (strip piece).
Qed.

(** A logged call of the generation routine, and what it carries. *)
Lemma generate_event_shape (material : option File) (question : string)
  (inputs : list Z) (kw : GenerateKwargs) :
  In (EvGenerate inputs kw) (snd (run (response material question))) ->
  Z.of_nat (List.length inputs) <= 32768 /\
  kw = kwargs /\
  (exists prompt,
     inputs = encode tokenizer prompt /\
     forall p, tokenizes (snd (run (response material question))) p <->
               p = prompt) /\
  count_generate (snd (run (response material question))) = 1%nat.
Proof.
  intros Hin.
  destruct (response_logs material question)
    as [E | [(path & E) | (path & prompt & H)]];
    cbv zeta in *.
  - rewrite E in Hin. destruct Hin.
  - rewrite E in Hin. log_lacks Hin.
  - destruct H as [[E _] | [Hn [E | (output & [E | (s & _ & E)])]]];
      rewrite E in *; log_lacks Hin; injection Hin as <- <-;
      (split; [exact Hn|]); (split; [reflexivity|]);
      (split; [|reflexivity]); exists prompt; (split; [reflexivity|]);
      intros p; unfold tokenizes;
      (split; [intros H; log_lacks H; now injection H
              | intros ->; log_has]).
Qed.

(** X6: the model's generation routine is called at most once in a
    request; a call carries the tokens of the one prompt that was
    tokenized, never more than 32768 of them, and the keyword arguments
    the closure captured. *)
Theorem generation_is_bounded (material : option File) (question : string) :
  (count_generate (snd (run (response material question))) <= 1)%nat /\
  forall inputs kw,
    In (EvGenerate inputs kw) (snd (run (response material question))) ->
    Z.of_nat (List.length inputs) <= 32768 /\
    kw = kwargs /\
    exists prompt,
      inputs = encode tokenizer prompt /\
      forall p, tokenizes (snd (run (response material question))) p <->
                p = prompt.
Proof.
  split.
  - destruct (response_logs material question)
      as [E | [(path & E) | (path & prompt & H)]];
      cbv zeta in *.
    + rewrite E. cbn. lia.
    + rewrite E. cbn. lia.
    + destruct H as [[E _] | [_ [E | (output & [E | (s & _ & E)])]]];
        rewrite E; cbn; lia.
  - intros inputs kw Hin.
    destruct (generate_event_shape material question inputs kw Hin)
      as (Hn & Hkw & Hp & _).
    auto.
Qed.


(** X8: [response] makes its calls in one order: open, tokenize,
    empty_cache, generate, decode, print, each at most once and none
    without the ones before it.  It prints exactly when it returns a
    generation result, and what it prints is the value it returns. *)
Theorem calls_in_order (material : option File) (question : string) :
  let outcome := run (response material question) in
  map stage (snd outcome) =
    map Some (seq O (List.length (snd outcome))) /\
  forall items,
    In (EvPrint items) (snd outcome) <->
    exists s,
      fst outcome = Ok s /\ calls_generate (snd outcome) /\
      items = ["out"; s].
Proof.
  cbv zeta.
  destruct (response_logs material question)
    as [E | [(path & E) | (path & prompt & H)]];
    cbv zeta in *.
  - rewrite E. split; [reflexivity|]. intros items. split.
    + intros [].
    + intros (s & _ & (i & k & []) & _).
  - rewrite E. split; [reflexivity|]. intros items. split.
    + intros H. log_lacks H.
    + intros (s & _ & (i & k & H) & _). log_lacks H.
  - destruct H as [[E _] | [_ [E | (output & [E | (s & Hs & E)])]]];
      rewrite E; (split; [reflexivity|]); intros items.
    + split; [intros H; log_lacks H|].
      intros (s & _ & (i & k & H) & _). log_lacks H.
    + split; [intros H; log_lacks H|].
      intros (s & Hs & _ & _).
      destruct (generation_result_shape material question s Hs)
        as (pr & ou & pi & _ & _ & _ & _ & _ & p' & Hlog).
      { rewrite E. eexists _, _. log_has. }
      rewrite E in Hlog. discriminate Hlog.
    + split; [intros H; log_lacks H|].
      intros (s & Hs & _ & _).
      destruct (generation_result_shape material question s Hs)
        as (pr & ou & pi & _ & _ & _ & _ & _ & p' & Hlog).
      { rewrite E. eexists _, _. log_has. }
      rewrite E in Hlog. discriminate Hlog.
    + split.
      * intros H. log_lacks H. injection H as <-.
        exists s. split; [exact Hs|]. split; [|reflexivity].
        eexists _, _. log_has.
      * intros (s' & Hs' & _ & ->). rewrite Hs in Hs'.
        injection Hs' as <-. log_has.
Qed.

End ResponseLaws.

(** X9: [read_txt_file] returns the text of the file as it is: when the
    file's lines are those of a text, the result is that text, and the log
    holds the one call of [open]; when [open] raises, so does
    [read_txt_file]. *)
Theorem read_txt_file_returns_text (host : Host) (path : string) :
  (forall text,
     open_text host path = Ok (readlines text) ->
     run (read_txt_file host path) = (Ok text, [EvOpen path])) /\
  (forall e,
     open_text host path = Raise e ->
     run (read_txt_file host path) = (Raise e, [EvOpen path])).
Proof.
  unfold run, read_txt_file, bind, call, ret. split.
  - intros text H. rewrite H. cbn [app]. f_equal. f_equal.
    unfold readlines. now rewrite readlines_go_concat.
  - intros e H. now rewrite H.
Qed.

Lemma round_ratio_outcome (s : bool) (a b : Z) :
  (exists z, round_ratio s a b = Ok (S754_zero z)) \/
  (exists m e, round_ratio s a b = Ok (S754_finite s m e)) \/
  round_ratio s a b = Raise OverflowError.
Proof.
  unfold round_ratio.
  destruct (_ =? 2 ^ prec); destruct (_ =? 0);
    try (left; now eexists);
    destruct (emax - prec <? _);
    try (right; right; reflexivity);
    right; left; now eexists _, _.
Qed.

Lemma math_ceil_total (s : bool) (a b : Z) (x : float) :
  round_ratio s a b = Ok x -> exists k, math_ceil x = Ok k.
Proof.
  intros H.
  destruct (round_ratio_outcome s a b)
    as [(z & E) | [(m & e & E) | E]]; rewrite E in H;
    [injection H as <- | injection H as <- | discriminate H];
    cbn; now eexists.
Qed.

(** The float operations of the RoPE-scaling step raise [OverflowError]
    and nothing else, once the divisor is not zero. *)
Lemma scaling_factor_raises (c m : Z) (e : exn) :
  m <> 0 ->
  (try quotient <- true_div c m;
   try ceiling <- math_ceil quotient;
   float_of_int ceiling)%result = Raise e ->
  e = OverflowError.
Proof.
  intros Hm. unfold true_div, float_of_int.
  replace (m =? 0) with false by (symmetry; now apply Z.eqb_neq).
  assert (Hfloat : forall k x, (if k =? 0 then Ok (S754_zero false)
                                else round_ratio (k <? 0) (Z.abs k) 1)
                               = Raise x -> x = OverflowError).
  { intros k x. destruct (k =? 0); [discriminate|].
    destruct (round_ratio_outcome (k <? 0) (Z.abs k) 1)
      as [(z & E) | [(n & j & E) | E]]; rewrite E; congruence. }
  destruct (c =? 0).
  - cbn [rbind math_ceil]. apply Hfloat.
  - destruct (round_ratio (xorb (c <? 0) (m <? 0)) (Z.abs c) (Z.abs m))
      as [q|x] eqn:Hq.
    + destruct (math_ceil_total _ _ _ q Hq) as [k Hk].
      cbn [rbind]. rewrite Hk. cbn [rbind]. apply Hfloat.
    + cbn [rbind]. intros H. injection H as <-.
      destruct (round_ratio_outcome (xorb (c <? 0) (m <? 0)) (Z.abs c)
                  (Z.abs m)) as [(z & E) | [(n & j & E) | E]];
        rewrite E in Hq; congruence.
Qed.

(** Outside its two quiet cases the RoPE-scaling step raises
    [OverflowError] or nothing. *)
Lemma scale_rope_overflow (c : Z) (config : Config) (e : exn) :
  scale_rope c config = Raise e -> e = OverflowError.
Proof.
  intros H.
  destruct (max_position_embeddings config) as [m|] eqn:Hm;
    [|rewrite scale_rope_absent in H by exact Hm; discriminate H].
  destruct (scale_rope_present c m config Hm) as [Hsame _].
  destruct (Z.eq_dec m 0) as [M0|M0];
    [rewrite Hsame in H by (now right); discriminate H|].
  destruct (Z.le_gt_cases c m) as [L|G];
    [rewrite Hsame in H by (now left); discriminate H|].
  unfold scale_rope in H. rewrite Hm in H.
  replace (m =? 0) with false in H by (symmetry; now apply Z.eqb_neq).
  replace (c >? m) with true in H by (symmetry; now apply Z.gtb_lt).
  cbn [negb andb] in H.
  apply (scaling_factor_raises c m e M0).
  destruct (true_div c m) as [q|x]; cbn [rbind] in *; [|congruence].
  destruct (math_ceil q) as [k|x]; cbn [rbind] in *; [|congruence].
  destruct (float_of_int k); cbn [rbind] in *; congruence.
Qed.

(** X10: the RoPE-scaling step of [main] divides only behind its guard: it
    never raises [ZeroDivisionError]; it raises [OverflowError] and nothing
    else, and only for a non-zero max_position_embeddings below a context
    size when one of the two reaches 2^53 in magnitude. *)
Theorem rope_step_raises_only_overflow (c : Z) (config : Config) (e : exn) :
  scale_rope c config = Raise e ->
  e = OverflowError /\
  exists m,
    max_position_embeddings config = Some m /\
    m <> 0 /\ m < c /\
    (2 ^ 53 <= Z.abs c \/ 2 ^ 53 <= Z.abs m).
Proof.
  intros H. split; [exact (scale_rope_overflow c config e H)|].
  destruct (max_position_embeddings config) as [m|] eqn:Hm;
    [|rewrite scale_rope_absent in H by exact Hm; discriminate H].
  destruct (scale_rope_present c m config Hm) as [Hsame Hscaled].
  destruct (Z.eq_dec m 0) as [M0|M0];
    [rewrite Hsame in H by (now right); discriminate H|].
  destruct (Z.le_gt_cases c m) as [L|G];
    [rewrite Hsame in H by (now left); discriminate H|].
  exists m. split; [reflexivity|]. split; [exact M0|]. split; [exact G|].
  destruct (Z.lt_ge_cases (Z.abs c) (2 ^ 53)) as [C|C]; [|now left].
  destruct (Z.lt_ge_cases (Z.abs m) (2 ^ 53)) as [B|B]; [|now right].
  destruct (Hscaled G M0 C B) as (x & Hx & _). congruence.
Qed.

Lemma ceil_div_least (c m : Z) :
  0 < m -> m * (ceil_div c m - 1) < c <= m * ceil_div c m.
Proof.
  intros Hm. unfold ceil_div.
  pose proof (Z.div_mod (- c) m ltac:(lia)) as E.
  pose proof (Z.mod_pos_bound (- c) m Hm) as B.
  nia.
Qed.

Section MainLaws.

Variable host : Host.
Variable args : Args.

Local Abbreviation base := (base_model args).
Local Abbreviation cache := (cache_dir args).
Local Abbreviation cases := (main_cases host args).



(** The configuration that reaches the model loader. *)
Lemma main_loaded_config (config scaled : Config) :
  AutoConfig_from_pretrained host base cache = Ok config ->
  scale_rope (context_size args) config = Ok scaled ->
  loaded_config (snd (run (main host args))) = Some scaled.
Proof.
  intros Hc Hs. rewrite cases, Hc, Hs. cbv zeta.
  destruct (AutoModelForCausalLM_from_pretrained host base scaled cache);
    [destruct (model_max_length_arg _ _);
     [destruct (AutoTokenizer_from_pretrained host base cache _);
      [destruct (_ && _)|]|]|];
    cbn [snd]; rewrite <- ?app_assoc, loaded_config_prologue; reflexivity.
Qed.

(** X11: when the RoPE scaling is set for a positive
    max_position_embeddings [m] below a context size [c] under 2^53, its
    factor is the least whole number of times [m] covers [c]: an integer
    [k >= 2] with [m * (k - 1) < c <= m * k]. *)
Theorem rope_factor_is_least_cover (config : Config) (m : Z) :
  AutoConfig_from_pretrained host base cache = Ok config ->
  max_position_embeddings config = Some m ->
  0 < m -> m < context_size args -> context_size args < 2 ^ 53 ->
  exists scaled x k,
    loaded_config (snd (run (main host args))) = Some scaled /\
    rope_scaling scaled =
      Some [("type", VStr "linear"); ("factor", VFloat x)] /\
    is_integer x k /\
    2 <= k /\ m * (k - 1) < context_size args <= m * k.
Proof.
  intros Hc Hm Hpos Hlt Hb.
  destruct (scale_rope_present (context_size args) m config Hm)
    as [_ Hscaled].
  destruct (Hscaled Hlt ltac:(lia) ltac:(lia) ltac:(lia))
    as (x & Hx & Hint).
  pose proof (ceil_div_least (context_size args) m Hpos) as Hk.
  eexists _, x, (ceil_div (context_size args) m).
  split; [exact (main_loaded_config _ _ Hc Hx)|].
  split; [reflexivity|]. split; [exact Hint|]. split; [nia | exact Hk].
Qed.

Lemma in_after_prologue (e : event) (tail : list event) :
  ~ In e (prologue args) -> In e (prologue args ++ tail) <-> In e tail.
Proof.
  intros Hno. rewrite in_app_iff. tauto.
Qed.



Ltac main_paths :=
  rewrite cases;
  destruct (AutoConfig_from_pretrained host base cache)
    as [config|] eqn:Hconfig;
    [destruct (scale_rope (context_size args) config)
       as [scaled|] eqn:Hscale;
     [cbv zeta;
      destruct (AutoModelForCausalLM_from_pretrained host base scaled cache)
        as [loaded|] eqn:Hmodel;
      [destruct (max_position_embeddings config) as [orig|] eqn:Horig;
       [rewrite model_max_length_present;
        destruct (AutoTokenizer_from_pretrained host base cache _)
          as [tok|] eqn:Htok;
        [destruct (negb (String.ltb (torch_version host) "2")
                   && negb (sys_platform host =? "win32")%string)
           eqn:Hcompile|]
       |cbn [model_max_length_arg]]|]|]|];
  rewrite <- ?app_assoc; cbn [app fst snd].





(** X15: the handler [main] serves is [response] built on the tokenizer
    that was loaded with the larger of the two lengths.  Each generation
    call it makes carries the command line's max_gen_len, temperature and
    top_p with use_cache on, and at most 32768 tokens.  The limit of 32768
    does not follow the context size: every readable .txt upload whose
    prompt has at most 32768 tokens is sent to generation in full. *)
Theorem served_handler (h : option File -> string -> M string) :
  fst (run (main host args)) = Ok h ->
  exists config m model tok,
    AutoConfig_from_pretrained host base cache = Ok config /\
    max_position_embeddings config = Some m /\
    AutoTokenizer_from_pretrained host base cache
      (Z.max (context_size args) m) = Ok tok /\
    h = build_generator host model tok (temperature args) (top_p args)
          (max_gen_len args) true /\
    (forall material question inputs kw,
       In (EvGenerate inputs kw) (snd (run (h material question))) ->
       kw = served_kwargs args /\ Z.of_nat (List.length inputs) <= 32768) /\
    (forall f question lines,
       ends_with ".txt" (name f) ->
       open_text host (name f) = Ok lines ->
       let prompt :=
         instruction_prompt (fold_left append lines "") question in
       Z.of_nat (List.length (encode tok prompt)) <= 32768 ->
       In (EvGenerate (encode tok prompt) (served_kwargs args))
         (snd (run (h (Some f) question)))).
Proof.
  assert (Hserved : forall model tok,
    (forall material question inputs kw,
       In (EvGenerate inputs kw)
         (snd (run (build_generator host model tok (temperature args)
                      (top_p args) (max_gen_len args) true
                      material question))) ->
       kw = served_kwargs args /\ Z.of_nat (List.length inputs) <= 32768) /\
    (forall f question lines,
       ends_with ".txt" (name f) ->
       open_text host (name f) = Ok lines ->
       let prompt :=
         instruction_prompt (fold_left append lines "") question in
       Z.of_nat (List.length (encode tok prompt)) <= 32768 ->
       In (EvGenerate (encode tok prompt) (served_kwargs args))
         (snd (run (build_generator host model tok (temperature args)
                      (top_p args) (max_gen_len args) true
                      (Some f) question))))).
  { intros model tok. split.
    - intros material question inputs kw Hin.
      destruct (generate_event_shape host model tok _ _ _ _ _ _ _ _ Hin)
        as (Hn & Hkw & _). now split.
    - intros f question lines Hext Hopen prompt Hn.
      rewrite (response_accepted host model tok _ _ _ _ f question lines
                 (or_introl Hext) Hopen).
      cbv zeta. fold prompt. rewrite (gtb_false _ _ Hn).
      unfold served_kwargs.
      destruct (generate model (encode tok prompt) _);
        [destruct (item _ 1)|]; log_has. }
  main_paths; intros Hh; try discriminate Hh; injection Hh as <-.
  - exists config, orig, (torch_compile host loaded), tok.
    destruct (Hserved (torch_compile host loaded) tok). auto 6.
  - exists config, orig, loaded, tok.
    destruct (Hserved loaded tok). auto 6.
Qed.

End MainLaws.

(** *** The laws on the sample surroundings *)

Import Samples.

(** A file name split at its dots, and joined again. *)
Lemma split_join_round_trip_witness :
  split "./materials/paper_1.txt" "." = Ok [""; "/materials/paper_1"; "txt"] /\
  join "." [""; "/materials/paper_1"; "txt"] = "./materials/paper_1.txt" /\
  forall p, In p [""; "/materials/paper_1"; "txt"] -> ~ occurs "." p.
Proof.
  split; [reflexivity|].
  destruct (split_join_round_trip "./materials/paper_1.txt" "."
              [""; "/materials/paper_1"; "txt"] eq_refl) as (J & _ & F).
  split; [exact J | exact F].
Defined.

(** A name without a dot is one piece. *)
Lemma split_edge_cases_witness :
  "." <> "" /\ ~ occurs "." "README" /\ split "README" "." = Ok ["README"].
Proof.
  assert (Hsep : "." <> "") by discriminate.
  assert (Hno : ~ occurs "." "README").
  { intros (a & b & E).
    repeat (destruct a as [|? a]; [discriminate E | injection E as _ E]).
    destruct a; discriminate E. }
  split; [exact Hsep|]. split; [exact Hno|].
  exact (proj1 (proj2 (split_edge_cases "README" ".")) Hsep Hno).
Defined.

Lemma note_before_prompt : first_at notes_prompt "Note: ".
Proof.
  repeat (eapply first_at_cons; [reflexivity | discriminate |]).
  apply first_at_nil.
Qed.

Lemma answer_before_prompt : first_at notes_prompt " A ".
Proof.
  repeat (eapply first_at_cons; [reflexivity | discriminate |]).
  apply first_at_nil.
Qed.

(** On the sample host: a note before the prompt and a repetition behind
    the answer are both left out. *)
Lemma answer_between_occurrences_witness :
  ends_with ".txt" (name notes) /\
  open_text (sample_host (Some 4096)) (name notes) = Ok notes_lines /\
  first_at notes_prompt "Note: " /\
  first_at notes_prompt " A " /\
  fst (run (sample_response char_tokenizer (framed_model "Note: " " A " " B")
              (Some notes) question)) = Ok (strip " A ") /\
  strip " A " = "A".
Proof.
  split; [exact notes_accepted|]. split; [reflexivity|].
  split; [exact note_before_prompt|]. split; [exact answer_before_prompt|].
  split; [|reflexivity].
  apply (answer_between_occurrences (sample_host (Some 4096))
           (framed_model "Note: " " A " " B") char_tokenizer
           (temperature default_args) (top_p default_args)
           (max_gen_len default_args) true notes question notes_lines
           (encode char_tokenizer
              ("Note: " ++ notes_prompt ++ " A " ++ notes_prompt ++ " B"))
           "Note: " " A " (notes_prompt ++ " B")
           notes_accepted (notes_readable _)).
  - vm_compute. discriminate.
  - vm_compute. reflexivity.
  - vm_compute. reflexivity.
  - exact note_before_prompt.
  - right. exists " B". split; [reflexivity | exact answer_before_prompt].
Defined.

Lemma echo_answer : 
  fst (run (sample_response char_tokenizer (echo_model " Done. ")
              (Some notes) question)) = Ok "Done.".
Proof. vm_compute. reflexivity. Qed.

Lemma echo_generates :
  calls_generate
    (snd (run (sample_response char_tokenizer (echo_model " Done. ")
                 (Some notes) question))).
Proof. eexists _, _. vm_compute. do 3 right. left. reflexivity. Qed.

(** On the sample host: the echoing model's answer holds no prompt. *)
Lemma answer_is_free_of_prompt_witness :
  fst (run (sample_response char_tokenizer (echo_model " Done. ")
              (Some notes) question)) = Ok "Done." /\
  calls_generate
    (snd (run (sample_response char_tokenizer (echo_model " Done. ")
                 (Some notes) question))) /\
  exists prompt,
    tokenizes
      (snd (run (sample_response char_tokenizer (echo_model " Done. ")
                   (Some notes) question))) prompt /\
    ~ occurs prompt "Done." /\ strip "Done." = "Done.".
Proof.
  split; [exact echo_answer|]. split; [exact echo_generates|].
  destruct (answer_is_free_of_prompt (sample_host (Some 4096))
              (echo_model " Done. ") char_tokenizer
              (temperature default_args) (top_p default_args)
              (max_gen_len default_args) true (Some notes) question "Done."
              echo_answer echo_generates)
    as (prompt & output & pre & mid & rest & Ht & _ & _ & _ & _ & _ & Hs & Hi).
  exists prompt. auto.
Defined.

(** On the sample host: the one generation call of a request. *)
Lemma generation_is_bounded_witness :
  exists inputs kw,
    In (EvGenerate inputs kw)
      (snd (run (sample_response char_tokenizer (echo_model " Done. ")
                   (Some notes) question))) /\
    Z.of_nat (List.length inputs) <= 32768 /\
    kw = served_kwargs default_args.
Proof.
  destruct echo_generates as (inputs & kw & Hin).
  exists inputs, kw. split; [exact Hin|].
  destruct (proj2 (generation_is_bounded (sample_host (Some 4096))
                     (echo_model " Done. ") char_tokenizer
                     (temperature default_args) (top_p default_args)
                     (max_gen_len default_args) true (Some notes) question)
              inputs kw Hin) as (Hn & Hkw & _).
  split; [exact Hn | exact Hkw].
Defined.



(** On the sample host: the six calls of an answered request, in order. *)
Lemma calls_in_order_witness :
  map stage
    (snd (run (sample_response char_tokenizer (echo_model " Done. ")
                 (Some notes) question))) =
    [Some 0; Some 1; Some 2; Some 3; Some 4; Some 5]%nat /\
  In (EvPrint ["out"; "Done."])
    (snd (run (sample_response char_tokenizer (echo_model " Done. ")
                 (Some notes) question))).
Proof.
  destruct (calls_in_order (sample_host (Some 4096)) (echo_model " Done. ")
              char_tokenizer (temperature default_args) (top_p default_args)
              (max_gen_len default_args) true (Some notes) question)
    as [Hstage Hprint].
  split.
  - unfold sample_response. rewrite Hstage. vm_compute. reflexivity.
  - apply Hprint. exists "Done.".
    split; [exact echo_answer|]. split; [exact echo_generates | reflexivity].
Defined.

(** On the sample host: the lines of [notes] are those of its text, and
    the text is what comes back. *)
Lemma read_txt_file_returns_text_witness :
  open_text (sample_host (Some 4096)) "notes.txt" = Ok (readlines notes_text) /\
  run (read_txt_file (sample_host (Some 4096)) "notes.txt") =
    (Ok notes_text, [EvOpen "notes.txt"]) /\
  open_text (sample_host (Some 4096)) "missing.txt" = Raise OSError /\
  run (read_txt_file (sample_host (Some 4096)) "missing.txt") =
    (Raise OSError, [EvOpen "missing.txt"]).
Proof.
  split; [reflexivity|]. split; [|split; [reflexivity|]].
  - exact (proj1 (read_txt_file_returns_text (sample_host (Some 4096))
                    "notes.txt") notes_text eq_refl).
  - exact (proj2 (read_txt_file_returns_text (sample_host (Some 4096))
                    "missing.txt") OSError eq_refl).
Defined.

Lemma huge_context_overflows :
  scale_rope (2 ^ 1024)
    {| max_position_embeddings := Some 1; rope_scaling := None |} =
  Raise OverflowError.
Proof. vm_compute. reflexivity. Qed.

(** A context size of 2^1024 over an original length of 1. *)
Lemma rope_step_raises_only_overflow_witness :
  scale_rope (2 ^ 1024)
    {| max_position_embeddings := Some 1; rope_scaling := None |} =
    Raise OverflowError /\
  exists m,
    Some 1 = Some m /\ m <> 0 /\ m < 2 ^ 1024 /\
    (2 ^ 53 <= Z.abs (2 ^ 1024) \/ 2 ^ 53 <= Z.abs m).
Proof.
  split; [exact huge_context_overflows|].
  exact (proj2 (rope_step_raises_only_overflow _ _ _
                  huge_context_overflows)).
Defined.

(** On the sample host: 32769 over 4096 is covered 9 times, not 8. *)
Lemma rope_factor_is_least_cover_witness :
  0 < 4096 /\ 4096 < 32769 /\ 32769 < 2 ^ 53 /\
  exists scaled x k,
    loaded_config
      (snd (run (main (sample_host (Some 4096)) (with_context_size 32769)))) =
      Some scaled /\
    rope_scaling scaled =
      Some [("type", VStr "linear"); ("factor", VFloat x)] /\
    is_integer x k /\ 2 <= k /\ 4096 * (k - 1) < 32769 <= 4096 * k.
Proof.
  split; [reflexivity|]. split; [reflexivity|]. split; [reflexivity|].
  exact (rope_factor_is_least_cover (sample_host (Some 4096))
           (with_context_size 32769)
           {| max_position_embeddings := Some 4096; rope_scaling := None |}
           4096 eq_refl eq_refl ltac:(reflexivity) ltac:(reflexivity)
           ltac:(reflexivity)).
Defined.





Lemma sample_main_succeeds :
  exists h,
    fst (run (main (sample_host (Some 4096)) default_args)) = Ok h.
Proof. now eexists. Qed.

(** On the sample host with the default context size: the tokenizer is
    asked for 4096 tokens, and the handler still sends the whole prompt of
    [notes] to generation. *)
Lemma served_handler_witness :
  exists h tok,
    fst (run (main (sample_host (Some 4096)) default_args)) = Ok h /\
    AutoTokenizer_from_pretrained (sample_host (Some 4096))
      (base_model default_args) (cache_dir default_args)
      (Z.max (-1) 4096) = Ok tok /\
    forall material question inputs kw,
      In (EvGenerate inputs kw) (snd (run (h material question))) ->
      kw = served_kwargs default_args /\
      Z.of_nat (List.length inputs) <= 32768.
Proof.
  destruct sample_main_succeeds as [h Hh].
  destruct (served_handler (sample_host (Some 4096)) default_args h Hh)
    as (config & m & model & tok & Hc & Hm & Ht & _ & Hkw & _).
  injection Hc as <-. injection Hm as <-.
  exists h, tok. auto.
Defined.

End DemoLaws.
